(** * RAG developer assistant: indexing and retrieval pipeline

    A shallow embedding of [app/core/chunking.py], [app/core/indexing.py]
    and [app/core/rag.py], with the properties of the pipeline stated and
    proved against the embedded code.

    Conventions of the embedding.
    - A Python [str] is a [string]; one character of the model is one code
      point below 256.  [len] is [String.length], read as an integer by
      [len].
    - A Python [int] is a [Z].
    - A call that may raise returns a [result]: [inl v] for a returned
      value, [inr e] for a raised instance of [Exception].
    - External collaborators (the embedding model, the vector store, the
      language model, the file system, the clock, the archive and parsing
      libraries) are functions supplied to the embedded code; the stateful
      ones thread an abstract world. *)

From Stdlib Require Import ZArith Ascii String List Lia Bool.
From stdpp Require Import base decidable option list gmap strings.

Local Open Scope Z_scope.
#[local] Set Warnings "-register-all".

(** ** Python values shared by all modules *)

(** An instance of Python's [Exception]: class name and message. *)
Record exception := Exception_ { exc_class : string; exc_msg : string }.

Definition result (A : Type) : Type := A + exception.

(** The line feed, as a character and as a one-character string. *)
Definition LF : ascii := ascii_of_nat 10.
Definition nl : string := String LF "".

Module Str.

(** [len(s)] *)
Definition len (s : string) : Z := Z.of_nat (String.length s).

(** [bool(s)]: a string is truthy when it is not empty. *)
Definition truthy (s : string) : bool :=
  match s with EmptyString => false | String _ _ => true end.

(** [c * n] for a character [c]. *)
Fixpoint repeat (c : ascii) (n : nat) : string :=
  match n with
  | O => EmptyString
  | S n' => String c (repeat c n')
  end.

(** [s.startswith(p)] *)
Definition startswith (s p : string) : bool := String.prefix p s.

(** [s[n:]] for a natural [n]. *)
Fixpoint drop (n : nat) (s : string) : string :=
  match n, s with
  | O, _ => s
  | S _, EmptyString => EmptyString
  | S n', String _ s' => drop n' s'
  end.

(** [s[-k:]] for an integer [k > 0]: the last [k] characters, or the
    whole string when it has fewer. *)
Definition tail_slice (k : Z) (s : string) : string :=
  drop (String.length s - Z.to_nat k)%nat s.

(** [s.endswith(suf)] *)
Definition endswith (s suf : string) : bool :=
  (String.length suf <=? String.length s)%nat &&
  String.eqb (drop (String.length s - String.length suf)%nat s) suf.

(** [s.endswith((suf1, suf2, ...))] *)
Definition endswith_any (s : string) (sufs : list string) : bool :=
  existsb (endswith s) sufs.

(** [sub in s] *)
Fixpoint contains (sub s : string) : bool :=
  String.prefix sub s ||
  match s with
  | EmptyString => false
  | String _ s' => contains sub s'
  end.

(** [s.split('\n')], with the piece being read in [cur]. *)
Fixpoint split_lf_from (cur s : string) : list string :=
  match s with
  | EmptyString => [cur]
  | String c s' =>
      if Ascii.eqb c LF then cur :: split_lf_from "" s'
      else split_lf_from (cur +:+ String c "") s'
  end.

Definition split_lf (s : string) : list string := split_lf_from "" s.

(** The line boundaries of [str.splitlines] that fit in one 8-bit
    character: LF, VT, FF, CR, FS, GS, RS and NEL. *)
Definition is_line_boundary (c : ascii) : bool :=
  match nat_of_ascii c with
  | 10%nat | 11%nat | 12%nat | 13%nat | 28%nat | 29%nat | 30%nat | 133%nat => true
  | _ => false
  end.

(** [s.splitlines()]: CR LF counts as one boundary and no empty last
    line is produced. *)
Fixpoint splitlines_from (cur s : string) : list string :=
  match s with
  | EmptyString => if truthy cur then [cur] else []
  | String c s' =>
      if is_line_boundary c then
        match s' with
        | String c' s'' =>
            if Ascii.eqb c (ascii_of_nat 13) && Ascii.eqb c' LF
            then cur :: splitlines_from "" s''
            else cur :: splitlines_from "" s'
        | EmptyString => cur :: splitlines_from "" s'
        end
      else splitlines_from (cur +:+ String c "") s'
  end.

Definition splitlines (s : string) : list string := splitlines_from "" s.

(** The first alternative of [alts] that matches at the start of [s]. *)
Definition first_match (alts : list string) (s : string) : option string :=
  List.find (fun kw => String.prefix kw s) alts.

(** [re.split('(a1|a2|...)', s)] for literal, non-empty alternatives:
    the text between matches and, because the pattern is one capturing
    group, each matched separator.  [skip] counts the characters of
    the current match still to be consumed. *)
Fixpoint re_split_from (alts : list string) (skip : nat) (cur s : string)
  : list string :=
  match s with
  | EmptyString => [cur]
  | String c s' =>
      match skip with
      | S k => re_split_from alts k cur s'
      | O =>
          match first_match alts s with
          | Some kw =>
              cur :: kw :: re_split_from alts (String.length kw - 1) "" s'
          | None => re_split_from alts O (cur +:+ String c "") s'
          end
      end
  end.

Definition re_split_group (alts : list string) (s : string) : list string :=
  re_split_from alts O "" s.

End Str.

(** ** [app/core/chunking.py] *)

Module Chunking.

(** A node of a Python syntax tree.  Only the two node classes that
    [process_python] tests for are told apart; every node carries its
    child nodes in the order of [ast.iter_child_nodes]. *)
Inductive ast_node :=
| FunctionDef (name : string) (children : list ast_node)
| ClassDef (name : string) (children : list ast_node)
| OtherNode (cls : string) (children : list ast_node).

Definition child_nodes (n : ast_node) : list ast_node :=
  match n with
  | FunctionDef _ cs | ClassDef _ cs | OtherNode _ cs => cs
  end.

Fixpoint ast_size (n : ast_node) : nat :=
  match n with
  | FunctionDef _ cs | ClassDef _ cs | OtherNode _ cs =>
      S (fold_right (fun c acc => (ast_size c + acc)%nat) O cs)
  end.

Definition forest_size (level : list ast_node) : nat :=
  fold_right (fun c acc => (ast_size c + acc)%nat) O level.

(** [ast.walk]: breadth first, that is level by level.  The fuel bounds
    the number of levels. *)
Fixpoint walk_levels (fuel : nat) (level : list ast_node) : list ast_node :=
  match fuel with
  | O => []
  | S fuel' =>
      match level with
      | [] => []
      | _ => level ++ walk_levels fuel' (flat_map child_nodes level)
      end
  end.

Definition walk (tree : ast_node) : list ast_node :=
  walk_levels (ast_size tree) [tree].

(** One dictionary of the list returned by [chunk_code];
    [start_line] is the entry of that name in its [metadata]. *)
Record chunk := Chunk {
  content : string;
  file_path : string;
  start_line : Z
}.

Record CodeChunker := { chunk_size : Z; chunk_overlap : Z }.

(** [CodeChunker()] *)
Definition default_chunker : CodeChunker :=
  {| chunk_size := 1000; chunk_overlap := 200 |}.

Definition code_suffixes : list string :=
  [".java"; ".cpp"; ".js"; ".ts"; ".cs"; ".rb"; ".php"; ".go"; ".tsx"; ".jsx"].

Definition line_suffixes : list string :=
  [".log"; ".csv"; ".json"; ".xml"; ".yaml"].

Definition keywords : list string :=
  ["class "; "def "; "function "; "const "; "let "; "var "; "public ";
   "private "; "return "].

(** State of the chunking loop: the chunks closed so far and
    [current_chunk]. *)
Definition close_chunk (self : CodeChunker) (path : string)
    (chunks : list chunk) (current : string) : list chunk :=
  chunks ++ [Chunk current path (Z.of_nat (length chunks) * chunk_size self)].

(** What [current_chunk] is reset to when a chunk is closed. *)
Definition seed (self : CodeChunker) (split : string) : string :=
  if 0 <? chunk_overlap self then Str.tail_slice (chunk_overlap self) split
  else "".

(** The body of [for split in splits]. *)
Definition chunk_step (self : CodeChunker) (path : string)
    (st : list chunk * string) (split : string) : list chunk * string :=
  let '(chunks, current) := st in
  if chunk_size self <? Str.len current + Str.len split
  then (close_chunk self path chunks current, seed self split +:+ split)
  else (chunks, current +:+ split).

Definition chunk_loop (self : CodeChunker) (path : string)
    (splits : list string) : list chunk * string :=
  fold_left (chunk_step self path) splits ([], "").

(** The chunks built from the split units: the loop, then the last
    chunk when it is not empty. *)
Definition chunks_of_splits (self : CodeChunker) (path : string)
    (splits : list string) : list chunk :=
  let '(chunks, current) := chunk_loop self path splits in
  if Str.truthy current then close_chunk self path chunks current
  else chunks.

(** A chunk that respects the character budget of the chunker. *)
Definition within_budget (self : CodeChunker) (c : chunk) : Prop :=
  Str.len (content c) <= chunk_size self.

(** A split unit that leaves room for the overlap within the budget; an
    overlap that is not positive counts as none. *)
Definition fits (self : CodeChunker) (split : string) : Prop :=
  Str.len split + Z.max 0 (chunk_overlap self) <= chunk_size self.

Section WithLibraries.

(** [markdown.markdown], [BeautifulSoup(html, 'html.parser').get_text()]
    and [ast.parse]. *)
Variable markdown_to_html : string -> result string.
Variable soup_get_text : string -> result string.
Variable ast_parse : string -> result ast_node.

Definition process_markdown (text : string) : result string :=
  match markdown_to_html text with
  | inl html => soup_get_text html
  | inr e => inr e
  end.

Definition marker (n : ast_node) : list string :=
  match n with
  | FunctionDef name _ | ClassDef name _ =>
      [nl +:+ nl +:+ "# " +:+ name +:+ " starts here" +:+ nl]
  | OtherNode _ _ => []
  end.

Definition process_python (text : string) : list string :=
  match ast_parse text with
  | inl tree => flat_map marker (walk tree)
  | inr _ => Str.split_lf text
  end.

(** The split units of a text, by the suffix of the file name. *)
Definition splits_of (path text : string) : list string :=
  if Str.endswith path ".py" then process_python text
  else if Str.endswith_any path code_suffixes
       then Str.re_split_group keywords text
  else if Str.endswith_any path line_suffixes then Str.splitlines text
  else Str.split_lf text.

(** The first half of [chunk_code]: the text, converted first when the
    file is Markdown, cut into split units. *)
Definition split_units (text path : string) : result (list string) :=
  match (if Str.endswith path ".md" then process_markdown text
         else inl text) with
  | inl text' => inl (splits_of path text')
  | inr e => inr e
  end.

Definition chunk_code (self : CodeChunker) (text path : string)
  : result (list chunk) :=
  match split_units text path with
  | inl splits => inl (chunks_of_splits self path splits)
  | inr e => inr e
  end.

End WithLibraries.

End Chunking.


(** ** Effects: process state, collaborators and the monad of the
    embedded methods *)

Module Py.

Definition bytes : Type := list Byte.byte.

(** The [metadata] dictionary of a chunk after [_process_file] has
    updated it.  [indexed_at] is the time stamp the code renders with
    [isoformat]. *)
Record metadata := Metadata {
  md_file_path : string;
  md_start_line : Z;
  md_repo_name : string;
  md_file_id : string;
  md_file_hash : string;
  md_file_type : string;
  md_indexed_at : Z
}.

(** What [collection.query] returns: the [documents] and [metadatas]
    entries, one inner list per query embedding. *)
Record query_result := QueryResult {
  qr_documents : list (list string);
  qr_metadatas : list (list (gmap string string))
}.

Inductive archive_kind := TarGz | Zip.

(** Calls to collaborators and log records, in program order. *)
Inductive event (Emb : Type) :=
| Log (level msg : string)
| EncodeCall (text : string)
| CollectionAdd (documents : list string) (embeddings : list Emb)
    (metadatas : list metadata) (ids : list string)
| CollectionQuery (query_embedding : Emb) (n_results : Z)
| LlmCall (prompt : string)
| SleepCall (seconds : Z)
| ListGerritCall
| FetchGerritCall (repo_name : string)
| FetchGithubCall (repo_url : string)
| MkdtempCall
| WriteFileCall (path : string)
| MakedirsCall (path : string)
| ExtractAllCall (kind : archive_kind) (names : list string) (dir : string)
| GlobCall (dir : string)
| ReadFileCall (path : string)
| CleanupCall (dir : string).

Arguments Log {Emb}.
Arguments EncodeCall {Emb}.
Arguments CollectionAdd {Emb}.
Arguments CollectionQuery {Emb}.
Arguments LlmCall {Emb}.
Arguments SleepCall {Emb}.
Arguments ListGerritCall {Emb}.
Arguments FetchGerritCall {Emb}.
Arguments FetchGithubCall {Emb}.
Arguments MkdtempCall {Emb}.
Arguments WriteFileCall {Emb}.
Arguments MakedirsCall {Emb}.
Arguments ExtractAllCall {Emb}.
Arguments GlobCall {Emb}.
Arguments ReadFileCall {Emb}.
Arguments CleanupCall {Emb}.

(** The libraries and services the code calls.  A stateful call takes
    the world and returns the next one. *)
Section Collaborators.

Context {World Emb : Type}.

Record collaborators := {
(* sentence_transformers: [encode(text).tolist()] *)
encode : string -> World -> result Emb * World;
(* chromadb collection and uuid *)
collection_add : list string -> list Emb -> list metadata ->
                 list string -> World -> result unit * World;
collection_query : Emb -> Z -> World -> result query_result * World;
uuid4 : World -> string * World;
(* langchain: the text of [llm.agenerate([prompt])] *)
agenerate : string -> World -> result string * World;
(* GerritClient *)
get_repositories : World -> result (list string) * World;
get_repository_content : string -> World -> result bytes * World;
download_github_repository : string -> World -> result bytes * World;
(* tempfile, os, glob, open *)
mkdtemp : World -> result string * World;
write_file : string -> bytes -> World -> result unit * World;
makedirs : string -> World -> result unit * World;
cleanup : string -> World -> World;
glob_files : string -> World -> result (list string) * World;
read_file : string -> World -> result bytes * World;
(* tarfile and zipfile: the entry names of the opened archive *)
tarfile_open : string -> World -> result (list string);
zipfile_open : string -> World -> result (list string);
extractall : archive_kind -> list string -> string -> World ->
             result unit * World;
(* bytes.decode: [None] when it raises UnicodeDecodeError *)
decode_utf8 : bytes -> option string;
decode_latin1 : bytes -> option string;
(* hashlib.sha256(content).hexdigest() and pathlib's suffix *)
sha256_hexdigest : bytes -> string;
path_suffix : string -> string;
(* markdown, BeautifulSoup and ast *)
markdown_to_html : string -> result string;
soup_get_text : string -> result string;
ast_parse : string -> result Chunking.ast_node;
(* datetime.datetime.now() and asyncio.sleep *)
now : World -> Z * World;
sleep : Z -> World -> World
}.

End Collaborators.

Arguments collaborators : clear implicits.

(** [app/config.py], the settings the embedded code reads. *)
Record Settings := {
  GITHUB_REPOS : list string;
  LLM_MODEL : string
}.

Definition settings : Settings :=
  {| GITHUB_REPOS := ["https://github.com/backstage/backstage"];
     LLM_MODEL := "codellama" |}.

(** The state of the process: the world of the collaborators, the
    events so far, [RepositoryIndexer.indexed_files] and
    [IndexingManager._last_indexed]. *)
Record state (World Emb : Type) := State {
  world : World;
  trace : list (event Emb);
  indexed_files : gset string;
  last_indexed : option Z
}.

Arguments State {World Emb}.
Arguments world {World Emb}.
Arguments trace {World Emb}.
Arguments indexed_files {World Emb}.
Arguments last_indexed {World Emb}.

Section Monad.

Context {World Emb : Type}.

(** A method body: from a state to a returned value or a raised
    exception, and the state reached.  A raise keeps every effect
    that happened before it. *)
Definition M (A : Type) : Type :=
  state World Emb -> result A * state World Emb.

Definition ret {A} (a : A) : M A := fun st => (inl a, st).

Definition raise {A} (e : exception) : M A := fun st => (inr e, st).

Definition bind {A B} (c : M A) (k : A -> M B) : M B :=
  fun st =>
    match c st with
    | (inl a, st') => k a st'
    | (inr e, st') => (inr e, st')
    end.

(** [try: c except Exception as e: h e] *)
Definition try_except {A} (c : M A) (h : exception -> M A) : M A :=
  fun st =>
    match c st with
    | (inl a, st') => (inl a, st')
    | (inr e, st') => h e st'
    end.

(** [with ...: c], the exit action [f] runs on every way out. *)
Definition finally {A} (c : M A) (f : M unit) : M A :=
  fun st =>
    match c st with
    | (r, st') =>
        match f st' with
        | (inl _, st'') => (r, st'')
        | (inr e, st'') => (inr e, st'')
        end
    end.

Definition emit (ev : event Emb) : M unit :=
  fun st => (inl tt, State (world st) (trace st ++ [ev])
                          (indexed_files st) (last_indexed st)).

(** A call to a collaborator that may raise, recorded as [ev]. *)
Definition call {A} (ev : event Emb)
    (f : World -> result A * World) : M A :=
  fun st =>
    let '(r, w) := f (world st) in
    (r, State w (trace st ++ [ev]) (indexed_files st) (last_indexed st)).

(** A call that returns nothing and cannot raise, recorded as [ev]. *)
Definition effect (ev : event Emb) (f : World -> World) : M unit :=
  fun st => (inl tt, State (f (world st)) (trace st ++ [ev])
                          (indexed_files st) (last_indexed st)).

(** A call that cannot raise. *)
Definition call_total {A} (f : World -> A * World) : M A :=
  fun st =>
    let '(a, w) := f (world st) in
    (inl a, State w (trace st) (indexed_files st) (last_indexed st)).

(** A look at the world that does not change it. *)
Definition peek {A} (f : World -> result A) : M A :=
  fun st => (f (world st), st).

Definition lift {A} (r : result A) : M A := fun st => (r, st).

Definition get_indexed_files : M (gset string) :=
  fun st => (inl (indexed_files st), st).

(** [self.indexed_files.add(file_id)] *)
Definition add_indexed_file (file_id : string) : M unit :=
  fun st => (inl tt, State (world st) (trace st)
                          ({[file_id]} ∪ indexed_files st)
                          (last_indexed st)).

Definition set_last_indexed (t : Z) : M unit :=
  fun st => (inl tt, State (world st) (trace st) (indexed_files st)
                          (Some t)).

Definition log (level msg : string) : M unit := emit (Log level msg).

(** [for x in xs: body x] *)
Fixpoint for_each {A} (xs : list A) (body : A -> M unit) : M unit :=
  match xs with
  | [] => ret tt
  | x :: xs' => bind (body x) (fun _ => for_each xs' body)
  end.

(** [await asyncio.gather] over [tasks], with the tasks run one after the
    other in the order of the list: every task runs, and the first
    exception raised, if any, is the one propagated. *)
Fixpoint gather {A} (tasks : list (M A)) : M (list A) :=
  match tasks with
  | [] => ret []
  | t :: ts =>
      fun st =>
        match t st with
        | (inl a, st') =>
            match gather ts st' with
            | (inl rest, st'') => (inl (a :: rest), st'')
            | (inr e, st'') => (inr e, st'')
            end
        | (inr e, st') => (inr e, snd (gather ts st'))
        end
  end.

End Monad.

Declare Scope py_scope.
Notation "x ← y ; z" := (bind y (fun x => z)) (only parsing) : py_scope.
Notation "x ;; z" := (bind x (fun _ => z)) (only parsing) : py_scope.

End Py.

(** ** [app/services/vector_store.py] and [app/services/llm.py] *)

Module Services.

Import Py.
Local Open Scope py_scope.

Section WithCollaborators.

Context {World Emb : Type} (C : collaborators World Emb).
Variable cfg : Settings.

Local Abbreviation M := (@M World Emb).

Fixpoint fresh_ids (n : nat) : M (list string) :=
  match n with
  | O => ret []
  | S n' =>
      id ← call_total (uuid4 C);
      ids ← fresh_ids n';
      ret (id :: ids)
  end.

(** [VectorStore.add_documents] *)
Definition add_documents (documents : list string)
    (embeddings : list Emb) (metadatas : list metadata) : M unit :=
  try_except
    (ids ← fresh_ids (length documents);
     call (CollectionAdd documents embeddings metadatas ids)
          (collection_add C documents embeddings metadatas ids))
    (fun e =>
       log "ERROR" ("Error adding documents to vector store: " +:+ exc_msg e);;
       raise e).

(** [VectorStore.query] *)
Definition query (query_embedding : Emb) (n_results : Z)
  : M query_result :=
  try_except
    (call (CollectionQuery query_embedding n_results)
          (collection_query C query_embedding n_results))
    (fun e =>
       log "ERROR" ("Error querying vector store: " +:+ exc_msg e);;
       raise e).

(** What [LLMService.generate_response] returns. *)
Record llm_response := { response : string; model : string }.

Definition indent : string := "            ".

(** [self.prompt_template.format(context=context, query=query)] *)
Definition format_prompt (context query : string) : string :=
  "You are a helpful code assistant. Using the provided code context and reasoning abilities, "
  +:+ nl +:+ indent
  +:+ "answer the user's query. Provide relevant code snippets when applicable."
  +:+ nl +:+ nl +:+ indent +:+ "Context:"
  +:+ nl +:+ indent +:+ context
  +:+ nl +:+ nl +:+ indent +:+ "Query:"
  +:+ nl +:+ indent +:+ query
  +:+ nl +:+ nl +:+ indent +:+ "Answer (include code where applicable):"
  +:+ nl +:+ indent.

(** [LLMService.generate_response]; [system_prompt] is not used. *)
Definition generate_response (query context : string)
    (system_prompt : option string) : M llm_response :=
  try_except
    (let prompt := format_prompt context query in
     text ← call (LlmCall prompt) (agenerate C prompt);
     ret {| response := text; model := LLM_MODEL cfg |})
    (fun e =>
       log "ERROR" ("Error generating LLM response: " +:+ exc_msg e);;
       raise e).

End WithCollaborators.

End Services.

(** ** [app/core/indexing.py] *)

Module Indexing.

Import Py.
Local Open Scope py_scope.

(** One element of the list returned by [_process_file]. *)
Record batch (Emb : Type) := Batch {
  embeddings : list Emb;
  documents : list string;
  metadatas : list metadata
}.

Arguments Batch {Emb}.
Arguments embeddings {Emb}.
Arguments documents {Emb}.
Arguments metadatas {Emb}.

Definition allowed_suffixes : list string :=
  [".py"; ".java"; ".cpp"; ".js"; ".ts"; ".tsx"; ".jsx"; ".css"; ".html";
   ".yaml"; ".json"; ".xml"; ".log"; ".txt"; ".config"; ".env"; ".md"].

(** [f"{repo_name}:{file_path}:{file_hash}"] *)
Definition make_file_id (repo_name file_path file_hash : string) : string :=
  repo_name +:+ ":" +:+ file_path +:+ ":" +:+ file_hash.

(** The test of the two loops of [_extract_archive]. *)
Definition suspicious (name : string) : bool :=
  Str.startswith name "/" || Str.contains ".." name.

(** The record logged for a suspicious entry of a [kind] archive. *)
Definition suspicious_warning {Emb} (kind name : string) : event Emb :=
  Log "WARNING"
      ("Suspicious path in " +:+ kind +:+ ": " +:+ name +:+ ", skipping").

(** The classes caught by [except (tarfile.TarError, zipfile.BadZipFile)]:
    the two named and the subclasses of [TarError]. *)
Definition archive_error_classes : list string :=
  ["TarError"; "ExtractError"; "ReadError"; "CompressionError";
   "StreamError"; "HeaderError"; "BadZipFile"].

Definition is_archive_error (e : exception) : bool :=
  bool_decide (exc_class e ∈ archive_error_classes).

(** [os.path.join(a, b)] for a relative [b]. *)
Definition os_path_join (a b : string) : string :=
  if Str.endswith a "/" then a +:+ b else a +:+ "/" +:+ b.

(** [os.path.relpath(p, d)] for a path [p] below the directory [d]. *)
Definition relpath (p d : string) : string :=
  Str.drop (String.length d + 1) p.

Definition is_empty {A} (l : list A) : bool :=
  match l with [] => true | _ => false end.

Section WithCollaborators.

Context {World Emb : Type} (C : collaborators World Emb).
Variable cfg : Settings.

Local Abbreviation M := (@M World Emb).

(** [self.chunker = CodeChunker()] *)
Definition chunker : Chunking.CodeChunker := Chunking.default_chunker.

(** The [for chunk in chunks] loop of [_process_file]: one call of
    the embedding model per chunk, then the metadata of the chunk. *)
Fixpoint embed_chunks (repo_name file_path file_id file_hash : string)
    (chunks : list Chunking.chunk) : M (list (Emb * metadata)) :=
  match chunks with
  | [] => ret []
  | chunk :: rest =>
      embedding ← call (EncodeCall (Chunking.content chunk))
                       (encode C (Chunking.content chunk));
      t ← call_total (now C);
      let metadata :=
        {| md_file_path := Chunking.file_path chunk;
           md_start_line := Chunking.start_line chunk;
           md_repo_name := repo_name;
           md_file_id := file_id;
           md_file_hash := file_hash;
           md_file_type := Str.drop 1 (path_suffix C file_path);
           md_indexed_at := t |} in
      more ← embed_chunks repo_name file_path file_id file_hash rest;
      ret ((embedding, metadata) :: more)
  end.

(** [self.chunker.chunk_code(text_content, file_path)] *)
Definition chunk_file (text_content file_path : string)
  : result (list Chunking.chunk) :=
  Chunking.chunk_code (markdown_to_html C) (soup_get_text C) (ast_parse C)
    chunker text_content file_path.

(** UTF-8 first, Latin-1 when that fails, [None] when both fail. *)
Definition decode_text (content : bytes) : option string :=
  match decode_utf8 C content with
  | Some text => Some text
  | None => decode_latin1 C content
  end.

(** The [try] block of [_process_file]. *)
Definition process_file_body (file_path repo_name : string)
  : M (list (batch Emb)) :=
  content ← call (ReadFileCall file_path) (read_file C file_path);
  match decode_text content with
  | None =>
      log "WARNING" ("Unable to decode file " +:+ file_path +:+ ", skipping");;
      ret []
  | Some text_content =>
      if negb (Str.endswith_any file_path allowed_suffixes) then ret []
      else
        chunks ← lift (chunk_file text_content file_path);
        let file_hash := sha256_hexdigest C content in
        let file_id := make_file_id repo_name file_path file_hash in
        seen ← get_indexed_files;
        if bool_decide (file_id ∈ seen) then
          log "DEBUG" ("Skipping already indexed file: " +:+ file_path);;
          ret []
        else
          embedded ← embed_chunks repo_name file_path file_id file_hash chunks;
          add_indexed_file file_id;;
          ret [Batch (map fst embedded)
                     (map Chunking.content chunks)
                     (map snd embedded)]
  end.

Definition _process_file (file_path repo_name : string)
  : M (list (batch Emb)) :=
  try_except (process_file_body file_path repo_name)
    (fun e =>
       log "ERROR" ("Error processing file " +:+ file_path +:+ ": " +:+ exc_msg e);;
       ret []).

(** One of the two loops over the entries of the archive: a warning
    for a suspicious name, and nothing else. *)
Definition warn_suspicious (kind : string) (names : list string) : M unit :=
  for_each names (fun name =>
    if suspicious name then emit (suspicious_warning kind name)
    else ret tt).

Definition extract_archive_body (archive_path extract_dir : string)
  : M unit :=
  if Str.endswith archive_path ".tar.gz" then
    names ← peek (tarfile_open C archive_path);
    warn_suspicious "tar" names;;
    call (ExtractAllCall TarGz names extract_dir)
         (extractall C TarGz names extract_dir);;
    log "INFO" ("Extracted tar.gz archive: " +:+ archive_path)
  else if Str.endswith archive_path ".zip" then
    names ← peek (zipfile_open C archive_path);
    warn_suspicious "zip" names;;
    call (ExtractAllCall Zip names extract_dir)
         (extractall C Zip names extract_dir);;
    log "INFO" ("Extracted zip archive: " +:+ archive_path)
  else
    raise (Exception_ "ValueError"
             ("Unsupported archive format: " +:+ archive_path)).

Definition _extract_archive (archive_path extract_dir : string) : M unit :=
  try_except (extract_archive_body archive_path extract_dir)
    (fun e =>
       (if is_archive_error e
        then log "ERROR" ("Error extracting archive " +:+ archive_path +:+ ": " +:+ exc_msg e)
        else ret tt);;
       raise e).

(** The body of [for result in results]: one [add_documents] per batch
    of the result of a file, none when the result is empty. *)
Definition store_result (result : list (batch Emb)) : M unit :=
  for_each result (fun b =>
    Services.add_documents C (documents b) (embeddings b) (metadatas b)).

(** The part shared by [_process_repository] and
    [_process_github_repository] once the archive bytes are there:
    the [with tempfile.TemporaryDirectory()] block. *)
Definition index_archive (archive_name : string) (archive : bytes)
    (repo : string) : M unit :=
  temp_dir ← call MkdtempCall (mkdtemp C);
  finally
    (let archive_path := os_path_join temp_dir archive_name in
     call (WriteFileCall archive_path) (write_file C archive_path archive);;
     let extract_dir := os_path_join temp_dir "extracted" in
     call (MakedirsCall extract_dir) (makedirs C extract_dir);;
     _extract_archive archive_path extract_dir;;
     files ← call (GlobCall extract_dir) (glob_files C extract_dir);
     for_each files (fun file_path =>
       log "DEBUG" ("Processing file: " +:+ relpath file_path extract_dir));;
     results ← gather (map (fun file_path => _process_file file_path repo) files);
     for_each results (fun result =>
       for_each result (fun b =>
         Services.add_documents C (documents b) (embeddings b) (metadatas b))))
    (effect (CleanupCall temp_dir) (cleanup C temp_dir)).

Definition _process_repository (repo_name : string) : M unit :=
  try_except
    (log "INFO" ("Processing Gerrit repository: " +:+ repo_name);;
     tar_content ← call (FetchGerritCall repo_name)
                        (get_repository_content C repo_name);
     if is_empty tar_content then
       log "ERROR" ("Empty tar content received for " +:+ repo_name +:+ ", skipping")
     else index_archive "repo.tar.gz" tar_content repo_name)
    (fun e =>
       log "ERROR" ("Error processing Gerrit repository " +:+ repo_name +:+ ": " +:+ exc_msg e);;
       raise e).

Definition _process_github_repository (repo_url : string) : M unit :=
  try_except
    (log "INFO" ("Processing GitHub repository: " +:+ repo_url);;
     zip_content ← call (FetchGithubCall repo_url)
                        (download_github_repository C repo_url);
     if is_empty zip_content then
       log "ERROR" ("Empty zip content received for " +:+ repo_url +:+ ", skipping")
     else index_archive "repo.zip" zip_content repo_url)
    (fun e =>
       log "ERROR" ("Error processing GitHub repository " +:+ repo_url +:+ ": " +:+ exc_msg e);;
       raise e).

(** [index_repositories].  [gerrit_tasks] is a list of coroutine
    objects that are built and never awaited (the [gather] over them
    is commented out), so none of their bodies runs: the list has no
    effect and only the GitHub tasks are gathered. *)
Definition index_repositories : M unit :=
  try_except
    (gerrit_repos ← call ListGerritCall (get_repositories C);
     let gerrit_tasks := map _process_repository gerrit_repos in
     let github_tasks := map _process_github_repository (GITHUB_REPOS cfg) in
     _ ← gather github_tasks;
     ret tt)
    (fun e =>
       log "ERROR" ("Error indexing repositories: " +:+ exc_msg e);;
       raise e).

(** One turn of the [while True] loop of
    [IndexingManager._run_indexing]. *)
Definition run_indexing_turn : M unit :=
  try_except
    (log "INFO" "Starting repository indexing";;
     index_repositories;;
     t ← call_total (now C);
     set_last_indexed t;;
     log "INFO" "Repository indexing completed";;
     effect (SleepCall (6 * 60 * 60)) (sleep C (6 * 60 * 60)))
    (fun e =>
       log "ERROR" ("Error during indexing: " +:+ exc_msg e);;
       effect (SleepCall (15 * 60)) (sleep C (15 * 60))).

(** The first [n] turns of the loop.  The loop has no [break] and no
    [return]: it can only end by an exception that leaves a turn. *)
Fixpoint _run_indexing (n : nat) : M unit :=
  match n with
  | O => ret tt
  | S n' => run_indexing_turn;; _run_indexing n'
  end.

End WithCollaborators.

End Indexing.

(** ** tenacity: [retry], [stop_after_attempt] and [wait_exponential] *)

Module Tenacity.

Import Py.
Local Open Scope py_scope.

(** [wait_exponential(multiplier, min, max)] after attempt number
    [attempt_number], with the default base 2. *)
Definition wait_exponential (multiplier min max attempt_number : Z) : Z :=
  Z.max (Z.max 0 min) (Z.min (multiplier * 2 ^ (attempt_number - 1)) max).

Section Retry.

Context {World Emb : Type} (C : collaborators World Emb).

Local Abbreviation M := (@M World Emb).

(** The attempts from number [attempt_number] on, [remaining] of them
    after this one.  A raised exception is followed by a sleep and the
    next attempt, or by [RetryError] when the stop condition holds. *)
Fixpoint attempts {A} (wait : Z -> Z) (remaining : nat) (attempt_number : Z)
    (fn : M A) : M A :=
  try_except fn
    (fun e =>
       match remaining with
       | O => raise (Exception_ "RetryError" (exc_msg e))
       | S remaining' =>
           effect (SleepCall (wait attempt_number))
                  (sleep C (wait attempt_number));;
           attempts wait remaining' (attempt_number + 1) fn
       end).

(** [@retry(stop=stop_after_attempt(n), wait=wait)] for [n >= 1]. *)
Definition retry {A} (stop_after_attempt : nat) (wait : Z -> Z) (fn : M A)
  : M A :=
  attempts wait (stop_after_attempt - 1) 1 fn.

End Retry.

End Tenacity.

(** ** [app/core/rag.py] *)

Module Rag.

Import Py.
Local Open Scope py_scope.

(** An element of the list returned by [_retrieve_relevant_chunks]. *)
Record retrieved := Retrieved {
  r_content : string;
  r_metadata : gmap string string
}.

(** An element of [sources]. *)
Record source := Source {
  s_file_path : string;
  s_repo_name : string;
  s_file_type : string
}.

(** The dictionary returned by [process_query]; the last three fields
    are its [metadata] entry. *)
Record answer := Answer {
  a_answer : string;
  a_sources : list source;
  a_model : string;
  a_chunks_retrieved : Z;
  a_prompt_tokens : option Z;
  a_completion_tokens : option Z
}.

(** [d[key]] on a dictionary with string keys. *)
Definition getitem (d : gmap string string) (key : string) : result string :=
  match d !! key with
  | Some v => inl v
  | None => inr (Exception_ "KeyError" key)
  end.

(** [l[i]] on a list. *)
Definition list_getitem {A} (l : list A) (i : nat) : result A :=
  match l !! i with
  | Some v => inl v
  | None => inr (Exception_ "IndexError" "list index out of range")
  end.

(** [result A] is a monad too; [_prepare_context] and the list
    comprehension of the sources only raise. *)
Definition rbind {A B} (r : result A) (k : A -> result B) : result B :=
  match r with inl a => k a | inr e => inr e end.

Fixpoint rmap {A B} (f : A -> result B) (l : list A) : result (list B) :=
  match l with
  | [] => inl []
  | x :: l' =>
      rbind (f x) (fun y => rbind (rmap f l') (fun ys => inl (y :: ys)))
  end.

Definition context_part (chunk : retrieved) : result string :=
  rbind (getitem (r_metadata chunk) "file_path") (fun file_path =>
  rbind (getitem (r_metadata chunk) "repo_name") (fun repo_name =>
  inl ("File: " +:+ file_path +:+ nl
       +:+ "Repository: " +:+ repo_name +:+ nl
       +:+ "Content:" +:+ nl +:+ r_content chunk +:+ nl))).

Definition _prepare_context (chunks : list retrieved) : result string :=
  rbind (rmap context_part chunks) (fun context_parts =>
  inl (String.concat (nl +:+ "---" +:+ nl) context_parts)).

Definition source_of (chunk : retrieved) : result source :=
  rbind (getitem (r_metadata chunk) "file_path") (fun file_path =>
  rbind (getitem (r_metadata chunk) "repo_name") (fun repo_name =>
  rbind (getitem (r_metadata chunk) "file_type") (fun file_type =>
  inl (Source file_path repo_name file_type)))).

Section WithCollaborators.

Context {World Emb : Type} (C : collaborators World Emb).
Variable cfg : Settings.

Local Abbreviation M := (@M World Emb).

Definition _create_embedding (text : string) : M Emb :=
  try_except (call (EncodeCall text) (encode C text))
    (fun e =>
       log "ERROR" ("Error creating embedding: " +:+ exc_msg e);;
       raise e).

(** The [for i in range(len(results['documents'][0]))] loop. *)
Definition pair_up (results : query_result) : result (list retrieved) :=
  rbind (list_getitem (qr_documents results) 0) (fun docs0 =>
  rmap (fun i =>
          rbind (list_getitem docs0 i) (fun doc =>
          rbind (list_getitem (qr_metadatas results) 0) (fun metas0 =>
          rbind (list_getitem metas0 i) (fun meta =>
          inl (Retrieved doc meta)))))
       (seq 0 (length docs0))).

(** The body of [_retrieve_relevant_chunks], without its decorator. *)
Definition retrieve_once (query_embedding : Emb) (top_k : Z)
  : M (list retrieved) :=
  try_except
    (results ← Services.query C query_embedding top_k;
     lift (pair_up results))
    (fun e =>
       log "ERROR" ("Error retrieving chunks: " +:+ exc_msg e);;
       raise e).

(** [_retrieve_relevant_chunks] as decorated with
    [@retry(stop=stop_after_attempt(3),
            wait=wait_exponential(multiplier=1, min=4, max=10))]. *)
Definition _retrieve_relevant_chunks (query_embedding : Emb) (top_k : Z)
  : M (list retrieved) :=
  Tenacity.retry C 3 (Tenacity.wait_exponential 1 4 10)
    (retrieve_once query_embedding top_k).

Definition process_query (query : string) (top_k : Z)
    (system_prompt : option string) : M answer :=
  try_except
    (query_embedding ← _create_embedding query;
     relevant_chunks ← _retrieve_relevant_chunks query_embedding top_k;
     context ← lift (_prepare_context relevant_chunks);
     response ← Services.generate_response C cfg query context system_prompt;
     sources ← lift (rmap source_of relevant_chunks);
     ret {| a_answer := Services.response response;
            a_sources := sources;
            a_model := Services.model response;
            a_chunks_retrieved := Z.of_nat (length relevant_chunks);
            a_prompt_tokens := None;
            a_completion_tokens := None |})
    (fun e =>
       log "ERROR" ("Error processing query: " +:+ exc_msg e);;
       raise e).

End WithCollaborators.

End Rag.

(** ** What a run is observed to do *)

Module Observe.

Import Py.

Section Observations.

Context {World Emb : Type}.

Local Abbreviation M := (@M World Emb).
Local Abbreviation state := (state World Emb).

(** [st'] comes after [st]: the set of indexed files has only grown and
    the trace has been extended by events that all satisfy [P]. *)
Definition extends (P : event Emb -> Prop) (st st' : state) : Prop :=
  indexed_files st ⊆ indexed_files st' /\
  exists evs, trace st' = trace st ++ evs /\ Forall P evs.

(** Every run of [c] only adds events that satisfy [P]. *)
Definition respects (P : event Emb -> Prop) {A} (c : M A) : Prop :=
  forall st, extends P st (c st).2.

(** Every run of [c] records the event [ev]. *)
Definition happens (ev : event Emb) {A} (c : M A) : Prop :=
  forall st, exists evs, trace (c st).2 = trace st ++ evs /\ In ev evs.

(** The texts given to the embedding model, in order. *)
Definition encode_calls (evs : list (event Emb)) : list string :=
  flat_map (fun ev => match ev with EncodeCall t => [t] | _ => [] end) evs.

(** The calls of [collection.query], [collection.add] and the language
    model, counted. *)
Definition query_calls (evs : list (event Emb)) : nat :=
  length (List.filter (fun ev => match ev with CollectionQuery _ _ => true | _ => false end) evs).

Definition add_calls (evs : list (event Emb)) : nat :=
  length (List.filter (fun ev => match ev with CollectionAdd _ _ _ _ => true | _ => false end) evs).

Definition llm_calls (evs : list (event Emb)) : nat :=
  length (List.filter (fun ev => match ev with LlmCall _ => true | _ => false end) evs).

(** The durations slept, in order. *)
Definition sleeps (evs : list (event Emb)) : list Z :=
  flat_map (fun ev => match ev with SleepCall s => [s] | _ => [] end) evs.

(** The events of an indexing pass: every event but a fetch from
    Gerrit, a sleep, a store query and a call of the language model. *)
Definition indexing_event (ev : event Emb) : bool :=
  match ev with
  | FetchGerritCall _ | SleepCall _ | CollectionQuery _ _ | LlmCall _ => false
  | _ => true
  end.

Definition is_gerrit_fetch (ev : event Emb) : bool :=
  match ev with FetchGerritCall _ => true | _ => false end.

Definition is_sleep (ev : event Emb) : bool :=
  match ev with SleepCall _ => true | _ => false end.

Definition is_embed_or_add (ev : event Emb) : bool :=
  match ev with
  | EncodeCall _ | CollectionAdd _ _ _ _ => true
  | _ => false
  end.

End Observations.

End Observe.

(** ** A concrete world, to run the embedded code *)

Module Demo.

Import Py.

(** What the collaborators of the demonstration answer. *)
Record script := {
  gerrit_projects : list string;
  archive_names : list string;
  file_names : list string;
  file_text : string;
  parse_tree : result Chunking.ast_node;
  encode_fails_on : string -> bool;
  query_failures : nat;
  query_answer : query_result;
  llm_text : string
}.

Definition boom (cls : string) : exception := Exception_ cls "unavailable".

(** A library call that returns its argument. *)
Definition as_is (text : string) : result string := inl text.

(** The world is the number of store queries made so far; an embedding
    is stood for by the length of its text. *)
Definition collaborators_of (s : script) : collaborators nat nat := {|
  encode text w :=
    if encode_fails_on s text then (inr (boom "RuntimeError"), w)
    else (inl (String.length text), w);
  collection_add _ _ _ _ w := (inl tt, w);
  collection_query _ _ w :=
    if (w <? query_failures s)%nat then (inr (boom "ConnectionError"), S w)
    else (inl (query_answer s), S w);
  uuid4 w := ("00000000-0000-4000-8000-000000000000", w);
  agenerate _ w := (inl (llm_text s), w);
  get_repositories w := (inl (gerrit_projects s), w);
  get_repository_content _ w := (inl [Byte.x50], w);
  download_github_repository _ w := (inl [Byte.x50], w);
  mkdtemp w := (inl "/tmp/tmpab12", w);
  write_file _ _ w := (inl tt, w);
  makedirs _ w := (inl tt, w);
  cleanup _ w := w;
  glob_files dir w := (inl (map (fun n => dir +:+ "/" +:+ n) (file_names s)), w);
  read_file _ w := (inl (String.list_byte_of_string (file_text s)), w);
  tarfile_open _ _ := inl (archive_names s);
  zipfile_open _ _ := inl (archive_names s);
  extractall _ _ _ w := (inl tt, w);
  decode_utf8 b := Some (String.string_of_list_byte b);
  decode_latin1 b := Some (String.string_of_list_byte b);
  sha256_hexdigest b := "sha256:" +:+ String.string_of_list_byte b;
  path_suffix p := Str.tail_slice 4 p;
  markdown_to_html := as_is;
  soup_get_text := as_is;
  ast_parse _ := parse_tree s;
  now w := (1700000000, w);
  sleep _ w := w
|}.

Definition start : state nat nat :=
  {| world := O; trace := []; indexed_files := ∅; last_indexed := None |}.

(** The state in which the file of the demonstration is already in the
    set of indexed files. *)
Definition notes_path : string := "/tmp/tmpab12/extracted/notes.txt".

Definition notes_id : string :=
  "demo" +:+ ":" +:+ notes_path +:+ ":" +:+ "sha256:" +:+ "alpha" +:+ nl +:+ "beta".

Definition already_indexed : state nat nat :=
  {| world := O; trace := []; indexed_files := {[ notes_id ]};
     last_indexed := None |}.

(** [def foo(): pass] and its syntax tree. *)
Definition foo_src : string := "def foo():" +:+ nl +:+ "    pass" +:+ nl.

Definition foo_tree : Chunking.ast_node :=
  Chunking.OtherNode "Module"
    [Chunking.FunctionDef "foo"
       [Chunking.OtherNode "arguments" []; Chunking.OtherNode "Pass" []]].

Definition syntax_error : result Chunking.ast_node :=
  inr (Exception_ "SyntaxError" "invalid syntax").

(** A parser that knows one program, and one that knows none. *)
Definition parse_foo (text : string) : result Chunking.ast_node :=
  if String.eqb text foo_src then inl foo_tree else syntax_error.

Definition parse_nothing (text : string) : result Chunking.ast_node :=
  syntax_error.

Definition no_result : query_result := QueryResult [[]] [[]].

(** A repository of one text file with two lines. *)
Definition plain : script := {|
  gerrit_projects := ["platform/build"];
  archive_names := ["notes.txt"];
  file_names := ["notes.txt"];
  file_text := "alpha" +:+ nl +:+ "beta";
  parse_tree := syntax_error;
  encode_fails_on := fun _ => false;
  query_failures := 0;
  query_answer := no_result;
  llm_text := "It depends."
|}.

(** The same repository, packed with a path that leaves the root. *)
Definition traversal : script := {|
  gerrit_projects := [];
  archive_names := ["../../etc/passwd"; "notes.txt"];
  file_names := ["notes.txt"];
  file_text := "alpha" +:+ nl +:+ "beta";
  parse_tree := syntax_error;
  encode_fails_on := fun _ => false;
  query_failures := 0;
  query_answer := no_result;
  llm_text := "It depends."
|}.

(** The embedding model refuses every text. *)
Definition no_embedding : script := {|
  gerrit_projects := [];
  archive_names := ["notes.txt"];
  file_names := ["notes.txt"];
  file_text := "alpha" +:+ nl +:+ "beta";
  parse_tree := syntax_error;
  encode_fails_on := fun _ => true;
  query_failures := 0;
  query_answer := no_result;
  llm_text := "It depends."
|}.

Definition one_hit : query_result :=
  QueryResult [["def foo(): pass"]]
    [[ {[ "file_path" := "src/foo.py"; "repo_name" := "demo";
          "file_type" := "py" ]} ]].

(** The store fails twice and then answers with one document. *)
Definition flaky_store : script := {|
  gerrit_projects := [];
  archive_names := [];
  file_names := [];
  file_text := "";
  parse_tree := syntax_error;
  encode_fails_on := fun _ => false;
  query_failures := 2;
  query_answer := one_hit;
  llm_text := "foo does nothing."
|}.

End Demo.

(** ** Shapes of texts and syntax trees *)

Module Shape.

(** [''.join(pieces)] *)
Fixpoint join (pieces : list string) : string :=
  match pieces with
  | [] => EmptyString
  | piece :: rest => piece +:+ join rest
  end.

(** [c in s] for a character [c]. *)
Fixpoint has_char (c : ascii) (s : string) : bool :=
  match s with
  | EmptyString => false
  | String c' s' => Ascii.eqb c' c || has_char c s'
  end.

(** A tree without any [FunctionDef] or [ClassDef] node. *)
Fixpoint defines_nothing (n : Chunking.ast_node) : bool :=
  match n with
  | Chunking.OtherNode _ children => forallb defines_nothing children
  | _ => false
  end.

(** Every chunk carries the path of the file and, as [start_line], its
    position in the list times the budget. *)
Definition numbered (self : Chunking.CodeChunker) (path : string)
    (chunks : list Chunking.chunk) : Prop :=
  forall (i : nat) (c : Chunking.chunk),
    chunks !! i = Some c ->
    Chunking.start_line c = Z.of_nat i * Chunking.chunk_size self /\
    Chunking.file_path c = path.

(** What [embed_chunks] writes in the metadata of a chunk, next to its
    embedding. *)
Definition enriched {Emb : Type} (repo file_id file_hash : string)
    (chunk : Chunking.chunk) (em : Emb * Py.metadata) : Prop :=
  Py.md_file_path em.2 = Chunking.file_path chunk /\
  Py.md_start_line em.2 = Chunking.start_line chunk /\
  Py.md_repo_name em.2 = repo /\
  Py.md_file_id em.2 = file_id /\
  Py.md_file_hash em.2 = file_hash.

(** The two kinds of call a repository pass makes to the embedding model
    and to the store. *)
Definition is_encode_call {Emb : Type} (ev : Py.event Emb) : bool :=
  match ev with Py.EncodeCall _ => true | _ => false end.

Definition is_add_call {Emb : Type} (ev : Py.event Emb) : bool :=
  match ev with Py.CollectionAdd _ _ _ _ => true | _ => false end.

Definition is_github_fetch {Emb : Type} (ev : Py.event Emb) : bool :=
  match ev with Py.FetchGithubCall _ => true | _ => false end.

(** A run in two phases: first events without a write to the store, then
    events without a call of the embedding model. *)
Definition two_phases {World Emb A : Type} (c : @Py.M World Emb A) : Prop :=
  forall st, exists before after,
    Py.trace (c st).2 = Py.trace st ++ before ++ after /\
    Forall (fun ev => is_add_call ev = false) before /\
    Forall (fun ev => is_encode_call ev = false) after.

(** The suffixes the chunker has a rule for and [_process_file] does
    not accept. *)
Definition unlisted_suffixes : list string :=
  [".cs"; ".rb"; ".php"; ".go"; ".csv"].

End Shape.

(** ** [app/api/endpoints/query.py] *)

Module Api.

Import Py.
Local Open Scope py_scope.

(** [QueryRequest] and [QueryResponse] of [app/models/schemas.py]. *)
Record QueryRequest (Emb : Type) := {
  query : string;
  query_embedding : option Emb
}.

Arguments query {Emb}.
Arguments query_embedding {Emb}.

Record QueryResponse := {
  answer : string;
  source_files : list string;
  model : string
}.

(** [HTTPException(status_code=500, detail=detail)] *)
Definition http_500 (detail : string) : exception :=
  Exception_ "HTTPException" ("500: " +:+ detail).

Section WithCollaborators.

Context {World Emb : Type} (C : collaborators World Emb).
Variable cfg : Settings.

Local Abbreviation M := (@M World Emb).

(** [query_code].  The answer of the store always has its [documents]
    entry, so the test [not results or not results.get("documents")] is
    the test that this list is empty. *)
Definition query_code (request : QueryRequest Emb) : M QueryResponse :=
  try_except
    (log "INFO" ("Received query: " +:+ query request);;
     embedding ←
       match query_embedding request with
       | None => call (EncodeCall (query request)) (encode C (query request))
       | Some given => ret given
       end;
     results ← Services.query C embedding 5;
     if Indexing.is_empty (qr_documents results) then
       ret {| answer := "No relevant code found for your query.";
              source_files := [];
              model := LLM_MODEL cfg |}
     else
       let flat_documents := concat (qr_documents results) in
       let context := String.concat (nl +:+ nl) flat_documents in
       response ← Services.generate_response C cfg (query request) context None;
       files ← lift (Rag.rbind (Rag.list_getitem (qr_metadatas results) 0)
                       (Rag.rmap (fun doc => Rag.getitem doc "file_path")));
       ret {| answer := Services.response response;
              source_files := files;
              model := Services.model response |})
    (fun e =>
       log "ERROR" ("Error processing query: " +:+ exc_msg e);;
       raise (http_500 (exc_msg e))).

End WithCollaborators.

End Api.

(** ** More worlds for the demonstration *)

Module Trial.

Import Py.

(** What is out of order in a world. *)
Record faults := {
  store_down : bool;
  gerrit_down : bool;
  empty_payload : bool
}.

(** The world of a script, with the faults asked for: a store that
    refuses to add, a Gerrit that does not list, a host that sends
    nothing. *)
Definition collaborators_with (s : Demo.script) (f : faults)
  : collaborators nat nat :=
  let base := Demo.collaborators_of s in {|
  encode := encode base;
  collection_add docs embs metas ids w :=
    if store_down f then (inr (Demo.boom "ConnectionError"), w)
    else collection_add base docs embs metas ids w;
  collection_query := collection_query base;
  uuid4 := uuid4 base;
  agenerate := agenerate base;
  get_repositories w :=
    if gerrit_down f then (inr (Demo.boom "ConnectError"), w)
    else get_repositories base w;
  get_repository_content name w :=
    if empty_payload f then (inl [], w) else get_repository_content base name w;
  download_github_repository url w :=
    if empty_payload f then (inl [], w)
    else download_github_repository base url w;
  mkdtemp := mkdtemp base;
  write_file := write_file base;
  makedirs := makedirs base;
  cleanup := cleanup base;
  glob_files := glob_files base;
  read_file := read_file base;
  tarfile_open := tarfile_open base;
  zipfile_open := zipfile_open base;
  extractall := extractall base;
  decode_utf8 := decode_utf8 base;
  decode_latin1 := decode_latin1 base;
  sha256_hexdigest := sha256_hexdigest base;
  path_suffix := path_suffix base;
  markdown_to_html := markdown_to_html base;
  soup_get_text := soup_get_text base;
  ast_parse := ast_parse base;
  now := now base;
  sleep := sleep base
|}.

Definition store_is_down : faults :=
  {| store_down := true; gerrit_down := false; empty_payload := false |}.

Definition gerrit_is_down : faults :=
  {| store_down := false; gerrit_down := true; empty_payload := false |}.

Definition nothing_sent : faults :=
  {| store_down := false; gerrit_down := false; empty_payload := true |}.

(** The name of the [n]-th temporary directory. *)
Definition temp_dir_name (n : nat) : string :=
  "/tmp/tmp" +:+ String (ascii_of_nat (48 + n)) "".

(** The world of a script in which [tempfile.TemporaryDirectory] makes a
    new directory each time, as it does: the world is the number of
    directories made so far. *)
Definition with_fresh_directories (s : Demo.script) : collaborators nat nat :=
  let base := Demo.collaborators_of s in {|
  encode := encode base;
  collection_add := collection_add base;
  collection_query emb k w := (inl (Demo.query_answer s), w);
  uuid4 := uuid4 base;
  agenerate := agenerate base;
  get_repositories := get_repositories base;
  get_repository_content := get_repository_content base;
  download_github_repository := download_github_repository base;
  mkdtemp w := (inl (temp_dir_name w), S w);
  write_file := write_file base;
  makedirs := makedirs base;
  cleanup := cleanup base;
  glob_files := glob_files base;
  read_file := read_file base;
  tarfile_open := tarfile_open base;
  zipfile_open := zipfile_open base;
  extractall := extractall base;
  decode_utf8 := decode_utf8 base;
  decode_latin1 := decode_latin1 base;
  sha256_hexdigest := sha256_hexdigest base;
  path_suffix := path_suffix base;
  markdown_to_html := markdown_to_html base;
  soup_get_text := soup_get_text base;
  ast_parse := ast_parse base;
  now := now base;
  sleep := sleep base
|}.

(** The identity of the file of the demonstration when it is read from
    the [n]-th temporary directory. *)
Definition notes_id_in (n : nat) : string :=
  Indexing.make_file_id "https://github.com/backstage/backstage"
    (temp_dir_name n +:+ "/extracted/notes.txt")
    ("sha256:" +:+ "alpha" +:+ nl +:+ "beta").

(** A script of statements, [print(1)], and a parser that knows it. *)
Definition script_src : string := "print(1)" +:+ nl.

Definition script_tree : Chunking.ast_node :=
  Chunking.OtherNode "Module"
    [Chunking.OtherNode "Expr"
       [Chunking.OtherNode "Call"
          [Chunking.OtherNode "Name" []; Chunking.OtherNode "Constant" []]]].

Definition parse_script (text : string) : result Chunking.ast_node :=
  if String.eqb text script_src then inl script_tree else Demo.syntax_error.

(** The store never answers. *)
Definition dead_store : Demo.script := {|
  Demo.gerrit_projects := [];
  Demo.archive_names := [];
  Demo.file_names := [];
  Demo.file_text := "";
  Demo.parse_tree := Demo.syntax_error;
  Demo.encode_fails_on := fun _ => false;
  Demo.query_failures := 3;
  Demo.query_answer := Demo.no_result;
  Demo.llm_text := "unused"
|}.

(** The store answers with a document whose metadata has no
    [file_type]. *)
Definition untyped_hit : query_result :=
  QueryResult [["def foo(): pass"]]
    [[ {[ "file_path" := "src/foo.py"; "repo_name" := "demo" ]} ]].

Definition untyped_store : Demo.script := {|
  Demo.gerrit_projects := [];
  Demo.archive_names := [];
  Demo.file_names := [];
  Demo.file_text := "";
  Demo.parse_tree := Demo.syntax_error;
  Demo.encode_fails_on := fun _ => false;
  Demo.query_failures := 0;
  Demo.query_answer := untyped_hit;
  Demo.llm_text := "foo does nothing."
|}.

(** The store answers with no inner list at all. *)
Definition bare_store : Demo.script := {|
  Demo.gerrit_projects := [];
  Demo.archive_names := [];
  Demo.file_names := [];
  Demo.file_text := "";
  Demo.parse_tree := Demo.syntax_error;
  Demo.encode_fails_on := fun _ => false;
  Demo.query_failures := 0;
  Demo.query_answer := QueryResult [] [];
  Demo.llm_text := "unused"
|}.

End Trial.

(** * Properties *)

(** ** Strings *)

Lemma string_app_cons (c : ascii) (s t : string) :
  String c s +:+ t = String c (s +:+ t).
Proof. reflexivity. Qed.

Lemma len_app (s t : string) : Str.len (s +:+ t) = Str.len s + Str.len t.
Proof.
  unfold Str.len. induction s as [|c s IH].
  - reflexivity.
  - rewrite string_app_cons. cbn [String.length]. lia.
Qed.

Lemma len_nonneg (s : string) : 0 <= Str.len s.
Proof. unfold Str.len. lia. Qed.

Lemma length_drop (n : nat) (s : string) :
  String.length (Str.drop n s) = (String.length s - n)%nat.
Proof.
  revert s. induction n as [|n IH]; intros s.
  - cbn. lia.
  - destruct s as [|c s]; cbn; [reflexivity | apply IH].
Qed.

Lemma len_tail_slice (k : Z) (s : string) :
  0 <= k -> Str.len (Str.tail_slice k s) = Z.min k (Str.len s).
Proof.
  intros Hk. unfold Str.tail_slice, Str.len. rewrite length_drop. lia.
Qed.

(** The embedded string methods on the examples of the Python
    documentation. *)
Example split_lf_keeps_empty_pieces :
  Str.split_lf ("ab" +:+ nl +:+ nl +:+ "c" +:+ nl) = ["ab"; ""; "c"; ""].
Proof. reflexivity. Qed.

Example splitlines_drops_last_empty_line :
  Str.splitlines ("ab" +:+ nl +:+ nl +:+ "c" +:+ nl) = ["ab"; ""; "c"].
Proof. reflexivity. Qed.

Example splitlines_of_empty : Str.splitlines "" = [].
Proof. reflexivity. Qed.

Example re_split_keeps_separators :
  Str.re_split_group Chunking.keywords "public class Foo { return x; }"
  = [""; "public "; ""; "class "; "Foo { "; "return "; "x; }"].
Proof. reflexivity. Qed.

Example tail_slice_short : Str.tail_slice 200 "abc" = "abc".
Proof. reflexivity. Qed.

(** ** The syntax tree walk has enough fuel *)

Section Walk.

Import Chunking.

Lemma ast_size_children (n : ast_node) :
  ast_size n = S (forest_size (child_nodes n)).
Proof. destruct n; reflexivity. Qed.

Lemma forest_size_app (l1 l2 : list ast_node) :
  forest_size (l1 ++ l2) = (forest_size l1 + forest_size l2)%nat.
Proof.
  unfold forest_size. induction l1 as [|n l1 IH]; cbn [app fold_right].
  - reflexivity.
  - rewrite IH. lia.
Qed.

Lemma forest_size_next_level (level : list ast_node) :
  (forest_size (flat_map child_nodes level) + length level)%nat
  = forest_size level.
Proof.
  induction level as [|n level IH]; [reflexivity|].
  cbn [flat_map length]. rewrite forest_size_app.
  change (forest_size (n :: level)) with (ast_size n + forest_size level)%nat.
  rewrite ast_size_children. lia.
Qed.

(** More fuel than the size of the level changes nothing: [walk]
    visits every node of the tree. *)
Lemma walk_levels_enough (fuel : nat) (level : list ast_node) :
  (forest_size level <= fuel)%nat ->
  walk_levels (S fuel) level = walk_levels fuel level.
Proof.
  revert level. induction fuel as [|fuel IH]; intros level Hsize.
  - destruct level as [|n level]; [reflexivity|].
    change (forest_size (n :: level)) with (ast_size n + forest_size level)%nat in Hsize.
    rewrite ast_size_children in Hsize. lia.
  - destruct level as [|n level]; [reflexivity|].
    change (walk_levels (S (S fuel)) (n :: level))
      with ((n :: level) ++ walk_levels (S fuel) (flat_map child_nodes (n :: level))).
    change (walk_levels (S fuel) (n :: level))
      with ((n :: level) ++ walk_levels fuel (flat_map child_nodes (n :: level))).
    f_equal. apply IH.
    pose proof (forest_size_next_level (n :: level)) as Hnext.
    cbn [length] in Hnext. lia.
Qed.

Lemma walk_fuel_independent (tree : ast_node) (extra : nat) :
  walk_levels (ast_size tree + extra) [tree] = walk tree.
Proof.
  unfold walk. induction extra as [|extra IH].
  - rewrite Nat.add_0_r. reflexivity.
  - rewrite Nat.add_succ_r, walk_levels_enough; [exact IH|].
    unfold forest_size. cbn [fold_right]. lia.
Qed.

End Walk.

(** ** The chunker *)

Section ChunkerFacts.

Import Chunking.

Variable self : CodeChunker.
Variable path : string.

(** The seed of the next chunk is never longer than the overlap. *)
Lemma len_seed (split : string) :
  Str.len (seed self split) <= Z.max 0 (chunk_overlap self).
Proof.
  unfold seed. destruct (Z.ltb_spec 0 (chunk_overlap self)) as [Hpos|Hneg].
  - rewrite len_tail_slice by lia. lia.
  - change (Str.len "") with 0. lia.
Qed.

(** When a chunk is closed, the closed chunk holds [current] and the next
    chunk starts from the tail of the overflowing unit followed by that
    unit itself: [current] plays no part in the seed. *)
Lemma chunk_step_close (chunks : list chunk) (current split : string) :
  chunk_size self < Str.len current + Str.len split ->
  chunk_step self path (chunks, current) split =
    (chunks ++ [Chunk current path (Z.of_nat (length chunks) * chunk_size self)],
     seed self split +:+ split).
Proof.
  intros H. unfold chunk_step, close_chunk.
  destruct (Z.ltb_spec (chunk_size self) (Str.len current + Str.len split)); [reflexivity | lia].
Qed.

Lemma chunk_step_extend (chunks : list chunk) (current split : string) :
  Str.len current + Str.len split <= chunk_size self ->
  chunk_step self path (chunks, current) split = (chunks, current +:+ split).
Proof.
  intros H. unfold chunk_step.
  destruct (Z.ltb_spec (chunk_size self) (Str.len current + Str.len split)); [lia | reflexivity].
Qed.

(** The loop keeps every closed chunk and the current chunk within the
    budget, as long as each unit leaves room for the overlap. *)
Lemma chunk_loop_budget (splits : list string) :
  Forall (fits self) splits ->
  forall chunks current,
    Forall (within_budget self) chunks ->
    Str.len current <= chunk_size self ->
    let st := fold_left (chunk_step self path) splits (chunks, current) in
    Forall (within_budget self) st.1 /\ Str.len st.2 <= chunk_size self.
Proof.
  intros Hfits. induction Hfits as [|split splits Hfit _ IH];
    intros chunks current Hchunks Hcur; cbn [fold_left].
  - split; assumption.
  - destruct (Z.lt_ge_cases (chunk_size self) (Str.len current + Str.len split)) as [Hclose|Hext].
    + rewrite chunk_step_close by assumption. apply IH.
      * apply Forall_app. split; [assumption|].
        constructor; [exact Hcur | constructor].
      * rewrite len_app. pose proof (len_seed split). unfold fits in Hfit. lia.
    + rewrite chunk_step_extend by lia. apply IH; [assumption|].
      rewrite len_app. lia.
Qed.

Lemma chunks_of_splits_budget (splits : list string) :
  Forall (fits self) splits ->
  Forall (within_budget self) (chunks_of_splits self path splits).
Proof.
  intros Hfits. unfold chunks_of_splits, chunk_loop.
  destruct splits as [|split splits].
  - cbn. constructor.
  - assert (Hsize : 0 <= chunk_size self).
    { inversion Hfits as [|? ? Hfit _]; subst. unfold fits in Hfit.
      pose proof (len_nonneg split). lia. }
    pose proof (chunk_loop_budget (split :: splits) Hfits [] "") as H.
    cbn zeta in H. specialize (H (Forall_nil_2 _) Hsize).
    destruct (fold_left _ _ _) as [chunks current]. cbn in H.
    destruct H as [Hchunks Hcur].
    destruct (Str.truthy current); [|assumption].
    unfold close_chunk. apply Forall_app. split; [assumption|].
    constructor; [exact Hcur | constructor].
Qed.

End ChunkerFacts.

Section ChunkerClaims.

Import Chunking.

(** The libraries behind [process_markdown] and [process_python]. *)
Variable markdown_to_html soup_get_text : string -> result string.
Variable ast_parse : string -> result ast_node.

Local Abbreviation chunk_code := (chunk_code markdown_to_html soup_get_text ast_parse).
Local Abbreviation split_units := (split_units markdown_to_html soup_get_text ast_parse).

(** C2.  Chunking [def foo(): pass] as a Python file with a budget of
    1000 characters returns exactly one chunk, and this chunk holds the
    marker line that [process_python] builds for the function [foo],
    not the content: no character of the function body is in it. *)
Theorem chunk_code_python_returns_marker (overlap : Z) :
  ast_parse Demo.foo_src = inl Demo.foo_tree ->
  chunk_code {| chunk_size := 1000; chunk_overlap := overlap |}
    Demo.foo_src "foo.py"
  = inl [Chunk (nl +:+ nl +:+ "# foo starts here" +:+ nl) "foo.py" 0]
  /\ nl +:+ nl +:+ "# foo starts here" +:+ nl <> Demo.foo_src.
Proof.
  intros Hparse. split; [|discriminate].
  unfold Chunking.chunk_code, Chunking.split_units.
  change (Str.endswith "foo.py" ".md") with false.
  unfold splits_of. change (Str.endswith "foo.py" ".py") with true.
  unfold process_python. rewrite Hparse. reflexivity.
Qed.

(** C5.  With the default chunker, two lines of 600 characters close a
    first chunk of 600 [a], and the next chunk is the last 200
    characters of the second line followed by that line: its seed is
    taken from the unit that overflowed, while the last 200 characters
    of the closed chunk, all [a], are not in it. *)
Theorem overlap_seed_taken_from_overflowing_unit :
  let closed := Str.repeat "a" 600 in
  let unit := Str.repeat "b" 600 in
  chunk_code default_chunker (closed +:+ nl +:+ unit) "notes.txt"
  = inl [Chunk closed "notes.txt" 0;
         Chunk (Str.repeat "b" 200 +:+ unit) "notes.txt" 1000]
  /\ Str.tail_slice 200 closed = Str.repeat "a" 200.
Proof. split; vm_compute; reflexivity. Qed.

(** C7, amended.  A split unit is never cut.  When every split unit of
    the content leaves room for the overlap within the budget, every
    chunk has at most [chunk_size] characters. *)
Theorem chunks_within_budget_when_units_fit
    (self : CodeChunker) (text path : string) (units : list string) :
  split_units text path = inl units ->
  Forall (fits self) units ->
  exists chunks,
    chunk_code self text path = inl chunks /\
    Forall (within_budget self) chunks.
Proof.
  intros Hunits Hfit. unfold Chunking.chunk_code. rewrite Hunits.
  eexists. split; [reflexivity|]. apply chunks_of_splits_budget. exact Hfit.
Qed.

End ChunkerClaims.

(** C7, as stated, fails: one line longer than the budget is a chunk
    longer than the budget, also without any overlap. *)
Lemma chunk_longer_than_budget :
  ~ (forall (markdown_to_html soup_get_text : string -> result string)
            (ast_parse : string -> result Chunking.ast_node)
            (self : Chunking.CodeChunker) (text path : string)
            (chunks : list Chunking.chunk),
        Chunking.chunk_overlap self < Chunking.chunk_size self ->
        Chunking.chunk_code markdown_to_html soup_get_text ast_parse
          self text path = inl chunks ->
        Forall (Chunking.within_budget self) chunks).
Proof.
  intros H.
  specialize (H Demo.as_is Demo.as_is Demo.parse_nothing
                {| Chunking.chunk_size := 5; Chunking.chunk_overlap := 0 |}
                "abcdefgh" "notes.txt"
                [Chunking.Chunk "" "notes.txt" 0;
                 Chunking.Chunk "abcdefgh" "notes.txt" 5]).
  cbn [Chunking.chunk_size Chunking.chunk_overlap] in H.
  specialize (H ltac:(lia) eq_refl).
  inversion H as [|? ? _ Hrest]; subst.
  inversion Hrest as [|? ? Hlong _]; subst.
  unfold Chunking.within_budget in Hlong. vm_compute in Hlong. apply Hlong. reflexivity.
Qed.

Lemma chunk_code_python_returns_marker_witness :
  Demo.parse_foo Demo.foo_src = inl Demo.foo_tree /\
  Chunking.chunk_code Demo.as_is Demo.as_is Demo.parse_foo
    {| Chunking.chunk_size := 1000; Chunking.chunk_overlap := 200 |}
    Demo.foo_src "foo.py"
  = inl [Chunking.Chunk (nl +:+ nl +:+ "# foo starts here" +:+ nl) "foo.py" 0].
Proof.
  split; [reflexivity|].
  apply (chunk_code_python_returns_marker Demo.as_is Demo.as_is Demo.parse_foo 200).
  reflexivity.
Defined.

Lemma chunks_within_budget_when_units_fit_witness :
  exists chunks,
    Chunking.chunk_code Demo.as_is Demo.as_is Demo.parse_nothing
      Chunking.default_chunker ("alpha" +:+ nl +:+ "beta") "notes.txt"
    = inl chunks /\
    Forall (Chunking.within_budget Chunking.default_chunker) chunks.
Proof.
  apply (chunks_within_budget_when_units_fit Demo.as_is Demo.as_is Demo.parse_nothing
           Chunking.default_chunker ("alpha" +:+ nl +:+ "beta") "notes.txt"
           ["alpha"; "beta"]).
  - reflexivity.
  - constructor; [vm_compute; discriminate|].
    constructor; [vm_compute; discriminate | constructor].
Defined.


(** ** Frame lemmas: what the combinators add to the trace and to the
    set of indexed files *)

Section Frames.

Import Py Observe.

Context {World Emb : Type}.
Variable P : event Emb -> Prop.

Local Abbreviation M := (@M World Emb).
Local Abbreviation state := (state World Emb).

Lemma extends_refl (st : state) : extends P st st.
Proof.
  split; [set_solver|]. exists []. rewrite app_nil_r. split; [reflexivity | constructor].
Qed.

Lemma extends_trans (st1 st2 st3 : state) :
  extends P st1 st2 -> extends P st2 st3 -> extends P st1 st3.
Proof.
  intros [Hs1 (evs1 & Ht1 & Hp1)] [Hs2 (evs2 & Ht2 & Hp2)].
  split; [set_solver|]. exists (evs1 ++ evs2).
  rewrite Ht2, Ht1, app_assoc. split; [reflexivity|]. apply Forall_app. split; assumption.
Qed.

Lemma extends_event (st : state) (ev : event Emb) (w : World) :
  P ev ->
  extends P st (State w (trace st ++ [ev]) (indexed_files st) (last_indexed st)).
Proof.
  intros Hev. split; [set_solver|]. exists [ev]. split; [reflexivity|].
  constructor; [assumption | constructor].
Qed.

Lemma respects_ret {A} (a : A) : respects P (ret a : M A).
Proof. intros st. apply extends_refl. Qed.

Lemma respects_raise {A} (e : exception) : respects P (raise e : M A).
Proof. intros st. apply extends_refl. Qed.

Lemma respects_lift {A} (r : result A) : respects P (lift r : M A).
Proof. intros st. apply extends_refl. Qed.

Lemma respects_peek {A} (f : World -> result A) : respects P (peek f : M A).
Proof. intros st. apply extends_refl. Qed.

Lemma respects_get_indexed_files : respects P (get_indexed_files : M _).
Proof. intros st. apply extends_refl. Qed.

Lemma respects_bind {A B} (c : M A) (k : A -> M B) :
  respects P c -> (forall a, respects P (k a)) -> respects P (bind c k).
Proof.
  intros Hc Hk st. unfold bind. specialize (Hc st).
  destruct (c st) as [[a|e] st1]; cbn in Hc |- *.
  - eapply extends_trans; [exact Hc | apply Hk].
  - exact Hc.
Qed.

Lemma respects_try_except {A} (c : M A) (h : exception -> M A) :
  respects P c -> (forall e, respects P (h e)) -> respects P (try_except c h).
Proof.
  intros Hc Hh st. unfold try_except. specialize (Hc st).
  destruct (c st) as [[a|e] st1]; cbn in Hc |- *.
  - exact Hc.
  - eapply extends_trans; [exact Hc | apply Hh].
Qed.

Lemma respects_finally {A} (c : M A) (f : M unit) :
  respects P c -> respects P f -> respects P (finally c f).
Proof.
  intros Hc Hf st. unfold finally. specialize (Hc st).
  destruct (c st) as [r st1]. specialize (Hf st1). cbn in Hc.
  destruct (f st1) as [[u|e] st2]; cbn in Hf |- *;
    (eapply extends_trans; [exact Hc | exact Hf]).
Qed.

Lemma respects_emit (ev : event Emb) : P ev -> respects P (emit ev : M unit).
Proof. intros Hev st. cbn. apply extends_event, Hev. Qed.

Lemma respects_log (level msg : string) :
  P (Log level msg) -> respects P (log level msg : M unit).
Proof. apply respects_emit. Qed.

Lemma respects_effect (ev : event Emb) (f : World -> World) :
  P ev -> respects P (effect ev f : M unit).
Proof. intros Hev st. cbn. apply extends_event, Hev. Qed.

Lemma respects_call {A} (ev : event Emb) (f : World -> result A * World) :
  P ev -> respects P (call ev f).
Proof.
  intros Hev st. unfold call. destruct (f (world st)) as [r w]. cbn.
  apply extends_event, Hev.
Qed.

Lemma respects_call_total {A} (f : World -> A * World) :
  respects P (call_total f : M A).
Proof.
  intros st. unfold call_total. destruct (f (world st)) as [a w]. cbn.
  split; [set_solver|]. exists []. cbn. rewrite app_nil_r. split; [reflexivity | constructor].
Qed.

Lemma respects_add_indexed_file (file_id : string) :
  respects P (add_indexed_file file_id : M unit).
Proof.
  intros st. cbn. split; [set_solver|]. exists []. cbn.
  rewrite app_nil_r. split; [reflexivity | constructor].
Qed.

Lemma respects_set_last_indexed (t : Z) :
  respects P (set_last_indexed t : M unit).
Proof.
  intros st. cbn. split; [set_solver|]. exists []. cbn.
  rewrite app_nil_r. split; [reflexivity | constructor].
Qed.

Lemma respects_for_each {A} (xs : list A) (body : A -> M unit) :
  (forall x, respects P (body x)) -> respects P (for_each xs body).
Proof.
  intros Hbody. induction xs as [|x xs IH]; cbn [for_each].
  - apply respects_ret.
  - apply respects_bind; [apply Hbody | intros _; exact IH].
Qed.

Lemma respects_gather {A} (tasks : list (M A)) :
  (forall t, In t tasks -> respects P t) -> respects P (gather tasks).
Proof.
  induction tasks as [|t ts IH]; intros Hts; cbn [gather].
  - apply respects_ret.
  - intros st. pose proof (Hts t (or_introl eq_refl) st) as Ht.
    assert (Hrest : respects P (gather ts)).
    { apply IH. intros t' Hin. apply Hts. right. exact Hin. }
    destruct (t st) as [[a|e] st1]; cbn in Ht.
    + specialize (Hrest st1). destruct (gather ts st1) as [[rest|e] st2]; cbn in Hrest |- *;
        (eapply extends_trans; [exact Ht | exact Hrest]).
    + cbn. eapply extends_trans; [exact Ht | apply Hrest].
Qed.

Lemma respects_gather_map {A B} (f : B -> M A) (xs : list B) :
  (forall x, respects P (f x)) -> respects P (gather (map f xs)).
Proof.
  intros Hf. apply respects_gather. intros t Hin.
  apply in_map_iff in Hin. destruct Hin as (x & <- & _). apply Hf.
Qed.

End Frames.

(** One step in the proof that a method respects a property of events:
    the rule of the combinator at the head of the method. *)
Ltac frame_step :=
  lazymatch goal with
  | |- Observe.respects _ (Py.bind _ _) => apply respects_bind; [|intros ?]
  | |- Observe.respects _ (Py.try_except _ _) => apply respects_try_except; [|intros ?]
  | |- Observe.respects _ (Py.finally _ _) => apply respects_finally
  | |- Observe.respects _ (Py.ret _) => apply respects_ret
  | |- Observe.respects _ (Py.raise _) => apply respects_raise
  | |- Observe.respects _ (Py.lift _) => apply respects_lift
  | |- Observe.respects _ (Py.peek _) => apply respects_peek
  | |- Observe.respects _ Py.get_indexed_files => apply respects_get_indexed_files
  | |- Observe.respects _ (Py.add_indexed_file _) => apply respects_add_indexed_file
  | |- Observe.respects _ (Py.set_last_indexed _) => apply respects_set_last_indexed
  | |- Observe.respects _ (Py.log _ _) => apply respects_log
  | |- Observe.respects _ (Py.emit _) => apply respects_emit
  | |- Observe.respects _ (Py.effect _ _) => apply respects_effect
  | |- Observe.respects _ (Py.call_total _) => apply respects_call_total
  | |- Observe.respects _ (Py.call _ _) => apply respects_call
  | |- Observe.respects _ (Py.for_each _ _) => apply respects_for_each; intros ?
  | |- Observe.respects _ (Py.gather (map _ _)) => apply respects_gather_map; intros ?
  | |- Observe.respects _ (if ?b then _ else _) => destruct b
  | |- Observe.respects _ (match ?x with _ => _ end) => destruct x
  | |- Observe.respects _ (let _ := _ in _) => cbv zeta
  end.

Create HintDb frame.

Ltac frame :=
  repeat frame_step; try reflexivity; eauto with frame.

(** ** The events of an indexing pass *)

Section IndexingEvents.

Import Py Observe Indexing.

Context {World Emb : Type} (C : collaborators World Emb).
Variable cfg : Settings.

Local Abbreviation indexing := (fun ev : event Emb => indexing_event ev = true).

Lemma fresh_ids_events (n : nat) : respects indexing (Services.fresh_ids C n).
Proof. induction n as [|n IH]; cbn [Services.fresh_ids]; frame. Qed.

Hint Resolve fresh_ids_events : frame.

Lemma add_documents_events docs embs metas :
  respects indexing (Services.add_documents C docs embs metas).
Proof. unfold Services.add_documents. frame. Qed.

Hint Resolve add_documents_events : frame.

Lemma embed_chunks_events repo path file_id file_hash chunks :
  respects indexing (embed_chunks C repo path file_id file_hash chunks).
Proof. induction chunks as [|c cs IH]; cbn [embed_chunks]; frame. Qed.

Hint Resolve embed_chunks_events : frame.

Lemma process_file_events path repo :
  respects indexing (_process_file C path repo).
Proof. unfold _process_file, process_file_body. frame. Qed.

Hint Resolve process_file_events : frame.

Lemma extract_archive_events archive_path extract_dir :
  respects indexing (_extract_archive C archive_path extract_dir).
Proof.
  unfold _extract_archive, extract_archive_body, warn_suspicious. frame.
Qed.

Hint Resolve extract_archive_events : frame.

Lemma store_result_events result : respects indexing (store_result C result).
Proof. unfold store_result. frame. Qed.

Hint Resolve store_result_events : frame.

Lemma index_archive_events archive_name archive repo :
  respects indexing (index_archive C archive_name archive repo).
Proof. unfold index_archive. frame. Qed.

Hint Resolve index_archive_events : frame.

Lemma process_github_repository_events url :
  respects indexing (_process_github_repository C url).
Proof. unfold _process_github_repository. frame. Qed.

Hint Resolve process_github_repository_events : frame.

Lemma index_repositories_events :
  respects indexing (index_repositories C cfg).
Proof. unfold index_repositories. frame. Qed.

End IndexingEvents.

(** ** Events that are sure to be recorded *)

Section Happens.

Import Py Observe.

Context {World Emb : Type}.
Variable P : event Emb -> Prop.

Local Abbreviation M := (@M World Emb).

Lemma happens_bind_emit {B} (e0 ev : event Emb) (k : unit -> M B) :
  happens ev (k tt) -> happens ev (bind (emit e0) k).
Proof.
  intros Hk st. unfold bind, emit.
  destruct (Hk (State (world st) (trace st ++ [e0]) (indexed_files st) (last_indexed st)))
    as (evs & Ht & Hin).
  exists (e0 :: evs). split.
  - rewrite Ht. cbn [trace]. rewrite <- app_assoc. reflexivity.
  - right. exact Hin.
Qed.

Lemma happens_bind_call {A B} (ev : event Emb)
    (f : World -> result A * World) (k : A -> M B) :
  (forall a, respects P (k a)) -> happens ev (bind (call ev f) k).
Proof.
  intros Hk st. unfold bind, call. destruct (f (world st)) as [[a|e] w].
  - destruct (Hk a (State w (trace st ++ [ev]) (indexed_files st) (last_indexed st)))
      as [_ (evs & Ht & _)].
    exists (ev :: evs). split.
    + rewrite Ht. cbn [trace]. rewrite <- app_assoc. reflexivity.
    + left. reflexivity.
  - exists [ev]. split; [reflexivity | left; reflexivity].
Qed.

Lemma happens_try_except {A} (ev : event Emb) (c : M A) (h : exception -> M A) :
  happens ev c -> (forall e, respects P (h e)) -> happens ev (try_except c h).
Proof.
  intros Hc Hh st. unfold try_except. destruct (Hc st) as (evs & Ht & Hin).
  destruct (c st) as [[a|e] st1]; cbn [snd] in Ht |- *.
  - exists evs. split; assumption.
  - destruct (Hh e st1) as [_ (evs' & Ht' & _)].
    exists (evs ++ evs'). split.
    + rewrite Ht', Ht, app_assoc. reflexivity.
    + apply in_or_app. left. exact Hin.
Qed.

Lemma happens_gather {A} (ev : event Emb) (tasks : list (M A)) (t : M A) :
  In t tasks -> (forall t', In t' tasks -> respects P t') ->
  happens ev t -> happens ev (gather tasks).
Proof.
  intros Hin Hall Ht. induction tasks as [|t0 ts IH]; [contradiction|].
  assert (Hts : respects P (gather ts)).
  { apply respects_gather. intros t' H'. apply Hall. right. exact H'. }
  intros st. cbn [gather]. destruct Hin as [->|Hin].
  - destruct (Ht st) as (evs & Htr & Hev).
    destruct (t st) as [[a|e] st1]; cbn [snd] in Htr.
    + destruct (Hts st1) as [_ (evs' & Htr' & _)].
      exists (evs ++ evs'). split; [|apply in_or_app; left; exact Hev].
      destruct (gather ts st1) as [[rest|e] st2]; cbn [snd] in Htr' |- *;
        rewrite Htr', Htr, app_assoc; reflexivity.
    + destruct (Hts st1) as [_ (evs' & Htr' & _)].
      exists (evs ++ evs'). split; [|apply in_or_app; left; exact Hev].
      cbn [snd]. rewrite Htr', Htr, app_assoc. reflexivity.
  - destruct (Hall t0 (or_introl eq_refl) st) as [_ (evs & Htr & _)].
    assert (Hrec : happens ev (gather ts)).
    { apply IH; [exact Hin|]. intros t' H'. apply Hall. right. exact H'. }
    destruct (t0 st) as [[a|e] st1]; cbn [snd] in Htr.
    + destruct (Hrec st1) as (evs' & Htr' & Hev).
      exists (evs ++ evs'). split; [|apply in_or_app; right; exact Hev].
      destruct (gather ts st1) as [[rest|e] st2]; cbn [snd] in Htr' |- *;
        rewrite Htr', Htr, app_assoc; reflexivity.
    + destruct (Hrec st1) as (evs' & Htr' & Hev).
      exists (evs ++ evs'). split; [|apply in_or_app; right; exact Hev].
      cbn [snd]. rewrite Htr', Htr, app_assoc. reflexivity.
Qed.

End Happens.

(** ** [index_repositories] *)

Section IndexRepositories.

Import Py Observe Indexing.

Context {World Emb : Type} (C : collaborators World Emb).
Variable cfg : Settings.

Local Abbreviation indexing := (fun ev : event Emb => indexing_event ev = true).

(** Processing a GitHub repository always starts by fetching it. *)
Lemma github_fetch_happens (repo_url : string) :
  happens (FetchGithubCall repo_url) (_process_github_repository C repo_url).
Proof.
  unfold _process_github_repository.
  apply (happens_try_except indexing).
  - apply happens_bind_emit. apply (happens_bind_call indexing).
    intros zip_content. frame. apply index_archive_events.
  - intros e. frame.
Qed.

(** C4.  Whatever Gerrit lists, [index_repositories] fetches no Gerrit
    repository: the tasks built for them are never awaited, so the
    operation returns without any of them having been processed.  When
    the Gerrit listing succeeds, every GitHub repository of the
    settings is fetched. *)
Theorem index_repositories_awaits_github_only (st : state World Emb) :
  exists evs,
    trace (index_repositories C cfg st).2 = trace st ++ evs /\
    (forall repo_name, ~ In (FetchGerritCall repo_name) evs) /\
    (forall gerrit_repos w,
        get_repositories C (world st) = (inl gerrit_repos, w) ->
        forall repo_url, In repo_url (GITHUB_REPOS cfg) ->
        In (FetchGithubCall repo_url) evs).
Proof.
  destruct (index_repositories_events C cfg st) as [_ (evs & Htr & Hall)].
  exists evs. split; [exact Htr|]. split.
  - intros repo_name Hin.
    pose proof (proj1 (List.Forall_forall _ _) Hall _ Hin) as Hev.
    discriminate Hev.
  - intros gerrit_repos w Hlist repo_url Hurl.
    revert Htr. unfold index_repositories, try_except, bind, call.
    rewrite Hlist.
    set (st1 := State w (trace st ++ [ListGerritCall]) (indexed_files st) (last_indexed st)).
    assert (Hg : happens (FetchGithubCall repo_url)
                   (gather (map (_process_github_repository C) (GITHUB_REPOS cfg)))).
    { apply (happens_gather indexing) with (t := _process_github_repository C repo_url).
      - apply in_map. exact Hurl.
      - intros t' Hin. apply in_map_iff in Hin. destruct Hin as (u & <- & _).
        apply process_github_repository_events.
      - apply github_fetch_happens. }
    destruct (Hg st1) as (evs1 & Htr1 & Hev).
    destruct (gather _ st1) as [[rs|e] st2]; cbn [snd] in Htr1 |- *; intros Htr.
    + cbn in Htr. rewrite Htr1 in Htr. subst st1. cbn [trace] in Htr.
      rewrite <- app_assoc in Htr. apply app_inv_head in Htr. subst evs.
      right. exact Hev.
    + cbn in Htr. rewrite Htr1 in Htr. subst st1. cbn [trace] in Htr.
      rewrite <- !app_assoc in Htr. apply app_inv_head in Htr. subst evs.
      apply in_or_app. right. apply in_or_app. left. exact Hev.
Qed.

End IndexRepositories.

(** ** [_extract_archive] *)

Section ExtractArchive.

Import Py Observe Indexing.

Context {World Emb : Type} (C : collaborators World Emb).

(** The loop over the entries logs one warning per suspicious entry and
    changes nothing else: no entry is taken out of the archive. *)
Lemma warn_suspicious_run (kind : string) (names : list string)
    (st : state World Emb) :
  warn_suspicious kind names st =
    (inl tt,
     State (world st)
           (trace st ++ map (suspicious_warning kind) (List.filter suspicious names))
           (indexed_files st) (last_indexed st)).
Proof.
  revert st. unfold warn_suspicious.
  induction names as [|name names IH]; intros st; cbn [for_each List.filter map].
  - unfold ret. rewrite app_nil_r. destruct st; reflexivity.
  - unfold bind. destruct (suspicious name).
    + unfold emit. rewrite IH. cbn [world trace indexed_files last_indexed map].
      rewrite <- app_assoc. reflexivity.
    + unfold ret at 1. apply IH.
Qed.

(** C1.  For a zip archive, [_extract_archive] warns about every entry
    whose name is absolute or contains [..], and then hands all the
    entries of the archive to [extractall], the flagged ones among them:
    no entry is skipped. *)
Theorem extract_archive_extracts_flagged_entries
    (archive_path extract_dir : string) (names : list string)
    (st : state World Emb) :
  Str.endswith archive_path ".tar.gz" = false ->
  Str.endswith archive_path ".zip" = true ->
  zipfile_open C archive_path (world st) = inl names ->
  exists rest,
    trace (_extract_archive C archive_path extract_dir st).2 =
      trace st ++ map (suspicious_warning "zip") (List.filter suspicious names)
               ++ ExtractAllCall Zip names extract_dir :: rest.
Proof.
  intros Htar Hzip Hopen.
  unfold _extract_archive, extract_archive_body, try_except.
  rewrite Htar, Hzip. unfold bind at 1. unfold peek. rewrite Hopen.
  unfold bind at 1. rewrite warn_suspicious_run.
  unfold bind at 1. unfold call. cbn [world trace indexed_files last_indexed].
  destruct (extractall C Zip names extract_dir (world st)) as [[[]|e] w].
  - eexists. cbn [snd log emit trace]. rewrite <- !app_assoc. reflexivity.
  - cbn [snd]. unfold bind. destruct (is_archive_error e).
    + eexists. cbn [log emit raise snd trace]. rewrite <- !app_assoc. reflexivity.
    + exists []. cbn [ret raise snd trace]. rewrite <- !app_assoc. reflexivity.
Qed.

(** The same holds for a tar.gz archive. *)
Lemma extract_archive_tar_extracts_flagged_entries
    (archive_path extract_dir : string) (names : list string)
    (st : state World Emb) :
  Str.endswith archive_path ".tar.gz" = true ->
  tarfile_open C archive_path (world st) = inl names ->
  exists rest,
    trace (_extract_archive C archive_path extract_dir st).2 =
      trace st ++ map (suspicious_warning "tar") (List.filter suspicious names)
               ++ ExtractAllCall TarGz names extract_dir :: rest.
Proof.
  intros Htar Hopen.
  unfold _extract_archive, extract_archive_body, try_except.
  rewrite Htar. unfold bind at 1. unfold peek. rewrite Hopen.
  unfold bind at 1. rewrite warn_suspicious_run.
  unfold bind at 1. unfold call. cbn [world trace indexed_files last_indexed].
  destruct (extractall C TarGz names extract_dir (world st)) as [[[]|e] w].
  - eexists. cbn [snd log emit trace]. rewrite <- !app_assoc. reflexivity.
  - cbn [snd]. unfold bind. destruct (is_archive_error e).
    + eexists. cbn [log emit raise snd trace]. rewrite <- !app_assoc. reflexivity.
    + exists []. cbn [ret raise snd trace]. rewrite <- !app_assoc. reflexivity.
Qed.

End ExtractArchive.

Lemma extract_archive_extracts_flagged_entries_witness :
  Indexing.suspicious "../../etc/passwd" = true /\
  exists rest,
    Py.trace (Indexing._extract_archive (Demo.collaborators_of Demo.traversal)
                "/tmp/tmpab12/repo.zip" "/tmp/tmpab12/extracted" Demo.start).2 =
      [Indexing.suspicious_warning "zip" "../../etc/passwd";
       Py.ExtractAllCall Py.Zip ["../../etc/passwd"; "notes.txt"]
         "/tmp/tmpab12/extracted"] ++ rest.
Proof.
  split; [reflexivity|].
  apply (extract_archive_extracts_flagged_entries
           (Demo.collaborators_of Demo.traversal)
           "/tmp/tmpab12/repo.zip" "/tmp/tmpab12/extracted"
           ["../../etc/passwd"; "notes.txt"] Demo.start);
    reflexivity.
Defined.

(** ** The retrieval pipeline *)

(** Unfolds the combinators at the head of a run, up to the next call
    of a collaborator. *)
Ltac run :=
  cbv beta iota zeta delta
    [Py.bind Py.try_except Py.finally Py.call Py.call_total Py.effect
     Py.emit Py.log Py.ret Py.raise Py.lift Py.peek
     Py.get_indexed_files Py.add_indexed_file Py.set_last_indexed];
  cbn [Py.world Py.trace Py.indexed_files Py.last_indexed fst snd].

Section RetrievalClaims.

Import Py Observe Rag.

Context {World Emb : Type} (C : collaborators World Emb).
Variable cfg : Settings.

(** C3.  When the store answers a query with no document,
    [process_query] still formats a prompt with an empty context, calls
    the language model with it and returns the text of the model as the
    answer, with no source: there is no test for an empty retrieval. *)
Theorem process_query_without_chunks_calls_llm
    (query : string) (top_k : Z) (system_prompt : option string)
    (st : state World Emb) (emb : Emb) (w1 w2 w3 : World)
    (other_documents : list (list string))
    (metadatas : list (list (gmap string string))) (text : string) :
  encode C query (world st) = (inl emb, w1) ->
  collection_query C emb top_k w1 =
    (inl (QueryResult ([] :: other_documents) metadatas), w2) ->
  agenerate C (Services.format_prompt "" query) w2 = (inl text, w3) ->
  process_query C cfg query top_k system_prompt st =
    (inl {| a_answer := text;
            a_sources := [];
            a_model := LLM_MODEL cfg;
            a_chunks_retrieved := 0;
            a_prompt_tokens := None;
            a_completion_tokens := None |},
     State w3
           (trace st ++ [EncodeCall query; CollectionQuery emb top_k;
                         LlmCall (Services.format_prompt "" query)])
           (indexed_files st) (last_indexed st)).
Proof.
  intros Hencode Hquery Hllm.
  unfold process_query, _create_embedding, _retrieve_relevant_chunks,
    Tenacity.retry, retrieve_once, Services.query, Services.generate_response.
  cbn [Nat.sub Tenacity.attempts]. run. rewrite Hencode. run. rewrite Hquery.
  cbn [pair_up rbind list_getitem qr_documents lookup list_lookup length seq rmap
       _prepare_context context_part String.concat]. run.
  rewrite Hllm. cbn [rmap length Z.of_nat Services.response Services.model].
  rewrite <- !app_assoc. reflexivity.
Qed.

(** The waits of the retry policy lie between 4 and 10 seconds. *)
Lemma wait_exponential_bounds (attempt_number : Z) :
  4 <= Tenacity.wait_exponential 1 4 10 attempt_number <= 10.
Proof. unfold Tenacity.wait_exponential. lia. Qed.

(** Case analysis on the answer of the next collaborator of
    [process_query]. *)
Ltac next_call C :=
  match goal with
  | |- context [encode C ?q ?w] => destruct (encode C q w) as [[?|?] ?]
  | |- context [collection_query C ?e ?k ?w] =>
      destruct (collection_query C e k w) as [[?|?] ?]
  | |- context [agenerate C ?p ?w] => destruct (agenerate C p w) as [[?|?] ?]
  | |- context [pair_up ?r] => destruct (pair_up r) as [?|?]
  | |- context [_prepare_context ?c] => destruct (_prepare_context c) as [?|?]
  | |- context [rmap source_of ?c] => destruct (rmap source_of c) as [?|?]
  end.

(** C8.  Only the store query is retried, at most three times, with
    waits between 4 and 10 seconds.
    - When the store fails twice and then answers, [process_query]
      returns the answer of the language model after exactly three
      store queries, with a wait of 4 seconds after each failure.
    - Whatever the collaborators answer, a run of [process_query] calls
      the embedding model exactly once, the store at most three times
      and the language model at most once, and every wait lies between
      4 and 10 seconds. *)
Theorem only_the_store_query_is_retried
    (query : string) (top_k : Z) (system_prompt : option string)
    (st : state World Emb) :
  (forall (emb : Emb) (w1 w2 w3 w4 w5 : World) (e1 e2 : exception)
          (results : query_result) (chunks : list retrieved)
          (context text : string) (sources : list source),
      encode C query (world st) = (inl emb, w1) ->
      collection_query C emb top_k w1 = (inr e1, w2) ->
      collection_query C emb top_k (sleep C 4 w2) = (inr e2, w3) ->
      collection_query C emb top_k (sleep C 4 w3) = (inl results, w4) ->
      pair_up results = inl chunks ->
      _prepare_context chunks = inl context ->
      agenerate C (Services.format_prompt context query) w4 = (inl text, w5) ->
      rmap source_of chunks = inl sources ->
      exists evs,
        process_query C cfg query top_k system_prompt st =
          (inl {| a_answer := text;
                  a_sources := sources;
                  a_model := LLM_MODEL cfg;
                  a_chunks_retrieved := Z.of_nat (length chunks);
                  a_prompt_tokens := None;
                  a_completion_tokens := None |},
           State w5 (trace st ++ evs) (indexed_files st) (last_indexed st)) /\
        query_calls evs = 3%nat /\
        sleeps evs = [4; 4] /\
        encode_calls evs = [query] /\
        llm_calls evs = 1%nat) /\
  (exists evs,
      trace (process_query C cfg query top_k system_prompt st).2 = trace st ++ evs /\
      encode_calls evs = [query] /\
      (query_calls evs <= 3)%nat /\
      (llm_calls evs <= 1)%nat /\
      Forall (fun seconds => 4 <= seconds <= 10) (sleeps evs)).
Proof.
  split.
  - intros emb w1 w2 w3 w4 w5 e1 e2 results chunks context text sources
      Hencode Hq1 Hq2 Hq3 Hpair Hcontext Hllm Hsources.
    unfold process_query, _create_embedding, _retrieve_relevant_chunks,
      Tenacity.retry, retrieve_once, Services.query, Services.generate_response.
    cbn [Nat.sub Tenacity.attempts]. run.
    change (Tenacity.wait_exponential 1 4 10 1) with 4.
    change (Tenacity.wait_exponential 1 4 10 (1 + 1)) with 4.
    rewrite Hencode. run. rewrite Hq1. run. rewrite Hq2. run. rewrite Hq3. run.
    rewrite Hpair. run. rewrite Hcontext. run. rewrite Hllm. run.
    rewrite Hsources. cbn [Services.response Services.model].
    eexists. rewrite <- !app_assoc. split; [reflexivity|].
    repeat split; reflexivity.
  - unfold process_query, _create_embedding, _retrieve_relevant_chunks,
      Tenacity.retry, retrieve_once, Services.query, Services.generate_response.
    cbn [Nat.sub Tenacity.attempts]. run.
    change (Tenacity.wait_exponential 1 4 10 1) with 4.
    change (Tenacity.wait_exponential 1 4 10 (1 + 1)) with 4.
    repeat (next_call C; run);
      (eexists; rewrite <- ?app_assoc; split; [reflexivity|];
       cbn; repeat split; try lia; repeat constructor; lia).
Qed.

End RetrievalClaims.

Lemma respects_weaken {World Emb : Type} (P Q : Py.event Emb -> Prop) {A}
    (c : @Py.M World Emb A) :
  (forall ev, P ev -> Q ev) -> Observe.respects P c -> Observe.respects Q c.
Proof.
  intros HPQ Hc st. destruct (Hc st) as [Hseen (evs & Htrace & Hall)].
  split; [exact Hseen|]. exists evs. split; [exact Htrace|].
  eapply List.Forall_impl; [exact HPQ | exact Hall].
Qed.

(** ** The scheduler *)

Section Scheduler.

Import Py Observe Indexing.

Context {World Emb : Type} (C : collaborators World Emb).
Variable cfg : Settings.

Local Abbreviation any := (fun _ : event Emb => True).

Lemma run_indexing_turn_events : respects any (run_indexing_turn C cfg).
Proof.
  unfold run_indexing_turn. frame.
  apply (respects_weaken (fun ev => indexing_event ev = true)); [auto|].
  apply index_repositories_events.
Qed.

Lemma run_indexing_events (n : nat) : respects any (_run_indexing C cfg n).
Proof.
  induction n as [|n IH]; cbn [_run_indexing]; frame.
  apply run_indexing_turn_events.
Qed.






End Scheduler.

(** ** [_process_file] and the set of indexed files *)

Section ProcessFile.

Import Py Observe Indexing.

Context {World Emb : Type} (C : collaborators World Emb).
Variable cfg : Settings.

(** The embedding loop leaves the set of indexed files alone; when it
    returns, it has called the embedding model once per chunk, in
    order. *)
Lemma embed_chunks_run repo path file_id file_hash chunks (st : state World Emb) :
  indexed_files (embed_chunks C repo path file_id file_hash chunks st).2
    = indexed_files st /\
  exists evs,
    trace (embed_chunks C repo path file_id file_hash chunks st).2
      = trace st ++ evs /\
    add_calls evs = O /\
    forall embedded,
      (embed_chunks C repo path file_id file_hash chunks st).1 = inl embedded ->
      length embedded = length chunks /\
      encode_calls evs = map Chunking.content chunks.
Proof.
  revert st. induction chunks as [|chunk rest IH]; intros st; cbn [embed_chunks].
  - run. split; [reflexivity|]. exists []. rewrite app_nil_r.
    split; [reflexivity|]. split; [reflexivity|].
    intros embedded [= <-]. split; reflexivity.
  - run. destruct (encode C (Chunking.content chunk) (world st)) as [[emb|e] w]; run.
    + destruct (now C w) as [t w']. run.
      match goal with
      | |- context [embed_chunks C repo path file_id file_hash rest ?s] =>
          destruct (IH s) as [Hseen (evs & Htrace & Hadd & Hok)];
          destruct (embed_chunks C repo path file_id file_hash rest s)
            as [[more|e] st1]
      end; cbn [fst snd] in *; cbn [indexed_files trace] in Hseen, Htrace.
      * split; [exact Hseen|]. exists (EncodeCall (Chunking.content chunk) :: evs).
        rewrite Htrace, <- app_assoc. split; [reflexivity|]. split; [exact Hadd|].
        intros embedded [= <-]. destruct (Hok more eq_refl) as [Hlen Hcalls].
        cbn [length map encode_calls flat_map app]. split; [congruence|].
        f_equal. exact Hcalls.
      * split; [exact Hseen|]. exists (EncodeCall (Chunking.content chunk) :: evs).
        rewrite Htrace, <- app_assoc. split; [reflexivity|]. split; [exact Hadd|].
        intros embedded [=].
    + split; [reflexivity|]. exists [EncodeCall (Chunking.content chunk)].
      split; [reflexivity|]. split; [reflexivity|]. intros embedded [=].
Qed.

(** The ways a run of [_process_file] can go.  Either the embedding
    model is not called at all, the result is empty and the set of
    indexed files is unchanged; or the file was read, decoded and
    chunked, its identity was not in the set, and then either the
    embedding raised, with the same empty outcome, or every chunk was
    embedded and only then the identity was added. *)
Lemma process_file_cases (path repo : string) (st : state World Emb) :
  ((_process_file C path repo st).1 = inl [] /\
   indexed_files (_process_file C path repo st).2 = indexed_files st /\
   exists evs,
     trace (_process_file C path repo st).2 = trace st ++ evs /\
     encode_calls evs = [] /\ add_calls evs = O)
  \/
  (exists content w text chunks,
     read_file C path (world st) = (inl content, w) /\
     decode_text C content = Some text /\
     chunk_file C text path = inl chunks /\
     (make_file_id repo path (sha256_hexdigest C content) ∉ indexed_files st) /\
     (((exists e st1, process_file_body C path repo st = (inr e, st1)) /\
       (_process_file C path repo st).1 = inl [] /\
       indexed_files (_process_file C path repo st).2 = indexed_files st)
      \/
      ((exists v st1, process_file_body C path repo st = (inl v, st1)) /\
       exists embedded evs,
         length embedded = length chunks /\
         (_process_file C path repo st).1
           = inl [Batch (map fst embedded) (map Chunking.content chunks)
                        (map snd embedded)] /\
         trace (_process_file C path repo st).2 = trace st ++ evs /\
         encode_calls evs = map Chunking.content chunks /\
         add_calls evs = O /\
         indexed_files (_process_file C path repo st).2
           = {[make_file_id repo path (sha256_hexdigest C content)]}
               ∪ indexed_files st))).
Proof.
  unfold _process_file, process_file_body. run.
  destruct (read_file C path (world st)) as [[content|e] w] eqn:Hread; run.
  2:{ left. split; [reflexivity|]. split; [reflexivity|].
      eexists. rewrite <- app_assoc. split; [reflexivity|]. split; reflexivity. }
  destruct (decode_text C content) as [text|] eqn:Hdecode; run.
  2:{ left. split; [reflexivity|]. split; [reflexivity|].
      eexists. rewrite <- app_assoc. split; [reflexivity|]. split; reflexivity. }
  destruct (Str.endswith_any path allowed_suffixes); cbn [negb]; run.
  2:{ left. split; [reflexivity|]. split; [reflexivity|].
      eexists. split; [reflexivity|]. split; reflexivity. }
  destruct (chunk_file C text path) as [chunks|e] eqn:Hchunks; run.
  2:{ left. split; [reflexivity|]. split; [reflexivity|].
      eexists. rewrite <- app_assoc. split; [reflexivity|]. split; reflexivity. }
  destruct (bool_decide_reflect
              (make_file_id repo path (sha256_hexdigest C content) ∈ indexed_files st))
    as [Hseen|Hnew]; run.
  { left. split; [reflexivity|]. split; [reflexivity|].
    eexists. rewrite <- app_assoc. split; [reflexivity|]. split; reflexivity. }
  right. exists content, w, text, chunks.
  split; [reflexivity|]. split; [exact Hdecode|]. split; [exact Hchunks|].
  split; [exact Hnew|].
  match goal with
  | |- context [embed_chunks C repo path ?i ?h chunks ?s] =>
      destruct (embed_chunks_run repo path i h chunks s)
        as [Hsame (evs & Htrace & Hadd & Hok)];
      destruct (embed_chunks C repo path i h chunks s) as [[embedded|e] st1]
  end; cbn [fst snd] in *; cbn [indexed_files trace] in Hsame, Htrace; run.
  - right. split; [eexists; eexists; reflexivity|].
    destruct (Hok embedded eq_refl) as [Hlen Hcalls].
    exists embedded, (ReadFileCall path :: evs).
    split; [exact Hlen|]. split; [reflexivity|].
    split; [rewrite Htrace, <- app_assoc; reflexivity|].
    split; [exact Hcalls|]. split; [exact Hadd|].
    rewrite Hsame. reflexivity.
  - left. split; [eexists; eexists; reflexivity|].
    split; [reflexivity|]. exact Hsame.
Qed.

(** A file is skipped only on its identity.  When the identity of the
    file read, which holds the path the file was read from, is already
    in the set of indexed files, [_process_file] returns an empty result without
    calling the embedding model, the store step for that result writes
    nothing, and the set is unchanged.  A result that is not empty is
    returned only for an identity that was not in the set, and leaves
    it in the set.  The set never loses an element, neither in
    [_process_file] nor over any number of turns of the scheduler. *)
Theorem seen_file_is_not_embedded_again
    (path repo : string) (st : state World Emb) (content : bytes) (w : World) :
  read_file C path (world st) = (inl content, w) ->
  let file_id := make_file_id repo path (sha256_hexdigest C content) in
  let run := _process_file C path repo st in
  (file_id ∈ indexed_files st ->
     run.1 = inl [] /\
     store_result C [] run.2 = (inl tt, run.2) /\
     indexed_files run.2 = indexed_files st /\
     exists evs,
       trace run.2 = trace st ++ evs /\
       encode_calls evs = [] /\ add_calls evs = O) /\
  (run.1 <> inl [] ->
     (file_id ∉ indexed_files st) /\ file_id ∈ indexed_files run.2) /\
  indexed_files st ⊆ indexed_files run.2 /\
  (forall (n : nat) (st0 : state World Emb),
     indexed_files st0 ⊆ indexed_files (_run_indexing C cfg n st0).2).
Proof.
  intros Hread file_id run. subst file_id run.
  destruct (process_file_cases path repo st)
    as [(Hres & Hsame & evs & Htrace & Henc & Hadd)
       |(content' & w' & text & chunks & Hread' & _ & _ & Hnew & Hcases)].
  - split; [|split; [|split]].
    + intros _. split; [exact Hres|]. split; [reflexivity|].
      split; [exact Hsame|]. exists evs. auto.
    + intros Hne. contradiction.
    + rewrite Hsame. reflexivity.
    + intros n st0. apply (run_indexing_events C cfg n st0).
  - rewrite Hread in Hread'. injection Hread' as <- <-.
    split; [|split; [|split]].
    + intros Hseen. contradiction.
    + intros Hne. split; [exact Hnew|].
      destruct Hcases as [(_ & Hres & _)|(_ & embedded & evs & _ & _ & _ & _ & _ & Hadded)].
      * contradiction.
      * rewrite Hadded. apply elem_of_union_l, elem_of_singleton_2. reflexivity.
    + destruct Hcases as [(_ & _ & Hsame)|(_ & embedded & evs & _ & _ & _ & _ & _ & Hadded)].
      * rewrite Hsame. reflexivity.
      * rewrite Hadded. apply union_subseteq_r.
    + intros n st0. apply (run_indexing_events C cfg n st0).
Qed.

(** C10.  A run of [_process_file] either leaves the set of indexed
    files as it was or adds the identity of the file after every chunk
    has been embedded.
    - When the [try] block raises, in reading, chunking or embedding,
      the result is empty and the set is unchanged.
    - When the content decodes neither as UTF-8 nor as Latin-1, the
      result is empty and the set is unchanged.
    - When the set has changed, the file was read, decoded and chunked,
      the embedding model was called once for each chunk, in order, the
      result is the batch of all the chunks, and the set has grown by
      the identity of the file alone. *)
Theorem process_file_is_atomic (path repo : string) (st : state World Emb) :
  let run := _process_file C path repo st in
  (forall e st1,
     process_file_body C path repo st = (inr e, st1) ->
     run.1 = inl [] /\ indexed_files run.2 = indexed_files st) /\
  (forall content w,
     read_file C path (world st) = (inl content, w) ->
     decode_text C content = None ->
     run.1 = inl [] /\ indexed_files run.2 = indexed_files st) /\
  (indexed_files run.2 <> indexed_files st ->
     exists content w text chunks embedded evs,
       read_file C path (world st) = (inl content, w) /\
       decode_text C content = Some text /\
       chunk_file C text path = inl chunks /\
       length embedded = length chunks /\
       run.1 = inl [Batch (map fst embedded) (map Chunking.content chunks)
                          (map snd embedded)] /\
       trace run.2 = trace st ++ evs /\
       encode_calls evs = map Chunking.content chunks /\
       indexed_files run.2
         = {[make_file_id repo path (sha256_hexdigest C content)]}
             ∪ indexed_files st).
Proof.
  intros run. subst run.
  destruct (process_file_cases path repo st)
    as [(Hres & Hsame & _)
       |(content & w & text & chunks & Hread & Hdecode & Hchunks & Hnew & Hcases)].
  - split; [|split].
    + intros e st1 _. split; assumption.
    + intros content w _ _. split; assumption.
    + intros Hne. contradiction.
  - destruct Hcases
      as [(_ & Hres & Hsame)
         |((v & st2 & Hbody) & embedded & evs & Hlen & Hres & Htrace & Henc & _ & Hadded)].
    + split; [|split].
      * intros e st1 _. split; assumption.
      * intros content' w' _ _. split; assumption.
      * intros Hne. contradiction.
    + split; [|split].
      * intros e st1 Hraise. rewrite Hbody in Hraise. discriminate Hraise.
      * intros content' w' Hread' Hnone. rewrite Hread in Hread'.
        injection Hread' as <- <-. rewrite Hdecode in Hnone. discriminate Hnone.
      * intros _. exists content, w, text, chunks, embedded, evs. auto 10.
Qed.

End ProcessFile.

(** ** The theorems at work on the demonstration world *)

Lemma index_repositories_awaits_github_only_witness :
  exists evs,
    Py.trace (Indexing.index_repositories (Demo.collaborators_of Demo.plain)
                Py.settings Demo.start).2 = Py.trace Demo.start ++ evs /\
    ~ In (Py.FetchGerritCall "platform/build") evs /\
    In (Py.FetchGithubCall "https://github.com/backstage/backstage") evs.
Proof.
  destruct (index_repositories_awaits_github_only
              (Demo.collaborators_of Demo.plain) Py.settings Demo.start)
    as (evs & Htrace & Hgerrit & Hgithub).
  exists evs. split; [exact Htrace|]. split; [apply Hgerrit|].
  apply (Hgithub ["platform/build"] O); [reflexivity | left; reflexivity].
Defined.

Lemma process_query_without_chunks_calls_llm_witness :
  Py.collection_query (Demo.collaborators_of Demo.plain) 1%nat 5 O
    = (inl (Py.QueryResult [[]] [[]]), 1%nat) /\
  Rag.process_query (Demo.collaborators_of Demo.plain) Py.settings "x" 5 None
    Demo.start
  = (inl {| Rag.a_answer := "It depends.";
            Rag.a_sources := [];
            Rag.a_model := "codellama";
            Rag.a_chunks_retrieved := 0;
            Rag.a_prompt_tokens := None;
            Rag.a_completion_tokens := None |},
     Py.State 1%nat
       (Py.trace Demo.start
          ++ [Py.EncodeCall "x"; Py.CollectionQuery 1%nat 5;
              Py.LlmCall (Services.format_prompt "" "x")])
       (Py.indexed_files Demo.start) (Py.last_indexed Demo.start)).
Proof.
  split; [reflexivity|].
  apply (process_query_without_chunks_calls_llm
           (Demo.collaborators_of Demo.plain) Py.settings "x" 5 None Demo.start
           1%nat O 1%nat 1%nat [] [[]] "It depends.");
    reflexivity.
Defined.

Lemma only_the_store_query_is_retried_witness :
  exists evs answer,
    Rag.process_query (Demo.collaborators_of Demo.flaky_store) Py.settings
      "what is foo?" 5 None Demo.start
    = (inl answer,
       Py.State 3%nat (Py.trace Demo.start ++ evs)
         (Py.indexed_files Demo.start) (Py.last_indexed Demo.start)) /\
    Rag.a_answer answer = "foo does nothing." /\
    Observe.query_calls evs = 3%nat /\
    Observe.sleeps evs = [4; 4].
Proof.
  edestruct (proj1 (only_the_store_query_is_retried
                      (Demo.collaborators_of Demo.flaky_store) Py.settings
                      "what is foo?" 5 None Demo.start))
    as (evs & Hrun & Hqueries & Hsleeps & _).
  - reflexivity.
  - reflexivity.
  - reflexivity.
  - reflexivity.
  - reflexivity.
  - reflexivity.
  - reflexivity.
  - reflexivity.
  - exists evs. eexists. split; [exact Hrun|].
    split; [reflexivity|]. split; [exact Hqueries | exact Hsleeps].
Defined.

Lemma seen_file_is_not_embedded_again_witness :
  Demo.notes_id ∈ Py.indexed_files Demo.already_indexed /\
  (Indexing._process_file (Demo.collaborators_of Demo.plain)
     Demo.notes_path "demo" Demo.already_indexed).1 = inl [].
Proof.
  assert (Hseen : Demo.notes_id ∈ Py.indexed_files Demo.already_indexed).
  { apply elem_of_singleton_2. reflexivity. }
  split; [exact Hseen|].
  apply (proj1 (seen_file_is_not_embedded_again
                  (Demo.collaborators_of Demo.plain) Py.settings
                  Demo.notes_path "demo" Demo.already_indexed
                  (String.list_byte_of_string (Demo.file_text Demo.plain)) O
                  eq_refl)).
  exact Hseen.
Defined.

Lemma process_file_is_atomic_witness :
  Indexing.process_file_body (Demo.collaborators_of Demo.no_embedding)
    Demo.notes_path "demo" Demo.start
  = (inr (Demo.boom "RuntimeError"),
     Py.State O [Py.ReadFileCall Demo.notes_path; Py.EncodeCall "alphabeta"]
       ∅ None) /\
  (Indexing._process_file (Demo.collaborators_of Demo.no_embedding)
     Demo.notes_path "demo" Demo.start).1 = inl [] /\
  Py.indexed_files
    (Indexing._process_file (Demo.collaborators_of Demo.no_embedding)
       Demo.notes_path "demo" Demo.start).2
  = Py.indexed_files Demo.start.
Proof.
  assert (Hraise :
    Indexing.process_file_body (Demo.collaborators_of Demo.no_embedding)
      Demo.notes_path "demo" Demo.start
    = (inr (Demo.boom "RuntimeError"),
       Py.State O [Py.ReadFileCall Demo.notes_path; Py.EncodeCall "alphabeta"]
         ∅ None)).
  { vm_compute. reflexivity. }
  split; [exact Hraise|].
  exact (proj1 (process_file_is_atomic (Demo.collaborators_of Demo.no_embedding)
                  Demo.notes_path "demo" Demo.start) _ _ Hraise).
Defined.

(** * Further properties of the code *)

(** ** Strings *)

Lemma string_app_nil_r (s : string) : s +:+ "" = s.
Proof.
  induction s as [|c s IH]; [reflexivity|].
  rewrite string_app_cons, IH. reflexivity.
Qed.

Lemma string_app_assoc (s t u : string) : (s +:+ t) +:+ u = s +:+ (t +:+ u).
Proof.
  induction s as [|c s IH]; [reflexivity|].
  rewrite !string_app_cons, IH. reflexivity.
Qed.

Lemma prefix_drop (kw s : string) :
  String.prefix kw s = true -> s = kw +:+ Str.drop (String.length kw) s.
Proof.
  revert s. induction kw as [|c kw IH]; intros s Hprefix.
  - reflexivity.
  - destruct s as [|c' s]; [discriminate Hprefix|].
    cbn [String.prefix] in Hprefix. destruct (ascii_dec c c') as [<-|]; [|discriminate].
    rewrite string_app_cons. cbn [String.length Str.drop]. f_equal. apply IH, Hprefix.
Qed.

Lemma drop_drop (a b : nat) (s : string) :
  Str.drop a (Str.drop b s) = Str.drop (b + a) s.
Proof.
  revert s. induction b as [|b IH]; intros s.
  - reflexivity.
  - destruct s as [|c s]; cbn [Str.drop Nat.add].
    + destruct a; reflexivity.
    + apply IH.
Qed.

Lemma has_char_app (c : ascii) (s t : string) :
  Shape.has_char c (s +:+ t) = Shape.has_char c s || Shape.has_char c t.
Proof.
  induction s as [|c' s IH]; [reflexivity|].
  rewrite string_app_cons. cbn [Shape.has_char]. rewrite IH, orb_assoc. reflexivity.
Qed.

Lemma has_char_drop (c : ascii) (n : nat) (s : string) :
  Shape.has_char c s = false -> Shape.has_char c (Str.drop n s) = false.
Proof.
  revert s. induction n as [|n IH]; intros s Hs; [exact Hs|].
  destruct s as [|c' s]; [reflexivity|]. cbn [Str.drop]. apply IH.
  cbn [Shape.has_char] in Hs. apply orb_false_elim in Hs. apply Hs.
Qed.

(** The pieces of [split('\n')] hold no line feed. *)
Lemma split_lf_from_no_lf (cur s : string) :
  Shape.has_char LF cur = false ->
  Forall (fun piece => Shape.has_char LF piece = false) (Str.split_lf_from cur s).
Proof.
  revert cur. induction s as [|c s IH]; intros cur Hcur; cbn [Str.split_lf_from].
  - constructor; [exact Hcur | constructor].
  - destruct (Ascii.eqb c LF) eqn:Hc.
    + constructor; [exact Hcur|]. apply IH. reflexivity.
    + apply IH. rewrite has_char_app, Hcur. cbn [Shape.has_char]. rewrite Hc. reflexivity.
Qed.

(** [re.split] with one capturing group loses nothing: its pieces joined
    are the text again. *)
Lemma re_split_from_join (alts : list string) (s : string) :
  Forall (fun kw => kw <> EmptyString) alts ->
  forall (skip : nat) (cur : string),
    Shape.join (Str.re_split_from alts skip cur s) = cur +:+ Str.drop skip s.
Proof.
  intros Halts. induction s as [|c s IH]; intros skip cur; cbn [Str.re_split_from].
  - cbn [Shape.join]. destruct skip; reflexivity.
  - destruct skip as [|skip].
    + destruct (Str.first_match alts (String c s)) as [kw|] eqn:Hmatch.
      * unfold Str.first_match in Hmatch. apply List.find_some in Hmatch.
        destruct Hmatch as [Hin Hprefix].
        assert (Hne : kw <> EmptyString).
        { exact (proj1 (List.Forall_forall _ _) Halts _ Hin). }
        destruct kw as [|c' kw]; [contradiction|].
        cbn [Shape.join]. rewrite IH. cbn [String.length Nat.sub].
        rewrite Nat.sub_0_r. change ("" +:+ ?x) with x.
        pose proof (prefix_drop _ _ Hprefix) as Hs. cbn [String.length Str.drop] in Hs.
        cbn [Str.drop]. rewrite <- Hs. reflexivity.
      * rewrite IH. cbn [Str.drop]. rewrite string_app_assoc. reflexivity.
    + rewrite IH. reflexivity.
Qed.

Lemma keywords_not_empty :
  Forall (fun kw => kw <> EmptyString) Chunking.keywords.
Proof. repeat constructor; discriminate. Qed.

(** ** The chunking loop *)

Section ChunkLoop.

Import Chunking.

Variable self : CodeChunker.
Variable path : string.

(** The chunks closed so far stay where they are: the loop only appends. *)
Lemma chunk_loop_appends (splits : list string) (chunks : list chunk)
    (current : string) :
  exists more,
    (fold_left (chunk_step self path) splits (chunks, current)).1 = chunks ++ more.
Proof.
  revert chunks current. induction splits as [|split splits IH];
    intros chunks current; cbn [fold_left].
  - exists []. rewrite app_nil_r. reflexivity.
  - unfold chunk_step at 2.
    destruct (chunk_size self <? Str.len current + Str.len split).
    + destruct (IH (close_chunk self path chunks current) (seed self split +:+ split))
        as (more & Hmore).
      eexists. rewrite Hmore. unfold close_chunk. rewrite <- app_assoc. reflexivity.
    + apply IH.
Qed.

Local Abbreviation numbered := (Shape.numbered self path).

Lemma numbered_close (chunks : list chunk) (current : string) :
  numbered chunks -> numbered (close_chunk self path chunks current).
Proof.
  intros Hnum i c Hlookup. unfold close_chunk in Hlookup.
  apply lookup_app_Some in Hlookup. destruct Hlookup as [Hin|[Hge Hlast]].
  - apply Hnum, Hin.
  - destruct (i - length chunks)%nat as [|k] eqn:Hk; [|destruct k; discriminate Hlast].
    injection Hlast as <-. cbn [start_line file_path].
    replace i with (length chunks) by lia. split; reflexivity.
Qed.

Lemma chunk_loop_numbered (splits : list string) (chunks : list chunk)
    (current : string) :
  numbered chunks ->
  numbered (fold_left (chunk_step self path) splits (chunks, current)).1.
Proof.
  revert chunks current. induction splits as [|split splits IH];
    intros chunks current Hnum; cbn [fold_left].
  - exact Hnum.
  - unfold chunk_step at 2.
    destruct (chunk_size self <? Str.len current + Str.len split).
    + apply IH, numbered_close, Hnum.
    + apply IH, Hnum.
Qed.

Lemma chunks_of_splits_numbered (splits : list string) :
  numbered (chunks_of_splits self path splits).
Proof.
  unfold chunks_of_splits, chunk_loop.
  pose proof (chunk_loop_numbered splits [] "") as Hnum.
  destruct (fold_left _ _ _) as [chunks current]. cbn [fst] in Hnum.
  assert (Hnil : numbered []). { intros i c Hlookup. discriminate Hlookup. }
  destruct (Str.truthy current); [apply numbered_close|]; apply Hnum, Hnil.
Qed.

(** Without overlap, the chunks closed so far and the current chunk hold
    the units read so far, in order. *)
Lemma chunk_loop_join (splits : list string) (chunks : list chunk)
    (current : string) :
  chunk_overlap self <= 0 ->
  let st := fold_left (chunk_step self path) splits (chunks, current) in
  Shape.join (map content st.1) +:+ st.2
  = (Shape.join (map content chunks) +:+ current) +:+ Shape.join splits.
Proof.
  intros Hov. revert chunks current. induction splits as [|split splits IH];
    intros chunks current; cbn [fold_left Shape.join].
  - cbn zeta. cbn [fst snd]. rewrite string_app_nil_r. reflexivity.
  - cbn zeta in IH |- *.
    destruct (Z.lt_ge_cases (chunk_size self) (Str.len current + Str.len split))
      as [Hclose|Hextend].
    + rewrite chunk_step_close by assumption.
      rewrite IH. unfold seed.
      destruct (Z.ltb_spec 0 (chunk_overlap self)); [lia|].
      rewrite map_app. cbn [map content]. change ("" +:+ split) with split.
      assert (Hjoin : forall l s, Shape.join (l ++ [s]) = Shape.join l +:+ s).
      { intros l s. induction l as [|x l IHl]; cbn [app Shape.join].
        - apply string_app_nil_r.
        - rewrite IHl, string_app_assoc. reflexivity. }
      rewrite Hjoin, !string_app_assoc. reflexivity.
    + rewrite chunk_step_extend by lia.
      rewrite IH, !string_app_assoc. reflexivity.
Qed.

Lemma chunks_of_splits_join (splits : list string) :
  chunk_overlap self <= 0 ->
  Shape.join (map content (chunks_of_splits self path splits)) = Shape.join splits.
Proof.
  intros Hov. unfold chunks_of_splits, chunk_loop.
  pose proof (chunk_loop_join splits [] "" Hov) as Hjoin. cbn zeta in Hjoin.
  destruct (fold_left _ _ _) as [chunks current]. cbn [fst snd map Shape.join] in Hjoin.
  change (("" +:+ "") +:+ Shape.join splits) with (Shape.join splits) in Hjoin.
  destruct current as [|c current]; cbn [Str.truthy].
  - rewrite string_app_nil_r in Hjoin. exact Hjoin.
  - unfold close_chunk. rewrite map_app. cbn [map content]. rewrite <- Hjoin.
    generalize (map content chunks) as l. intros l.
    induction l as [|x l IHl]; cbn [app Shape.join].
    + apply string_app_nil_r.
    + rewrite IHl, string_app_assoc. reflexivity.
Qed.

(** No chunk holds a character that no unit holds. *)
Lemma chunk_loop_without_char (c : ascii) (splits : list string)
    (chunks : list chunk) (current : string) :
  Forall (fun unit => Shape.has_char c unit = false) splits ->
  Forall (fun ch => Shape.has_char c (content ch) = false) chunks ->
  Shape.has_char c current = false ->
  let st := fold_left (chunk_step self path) splits (chunks, current) in
  Forall (fun ch => Shape.has_char c (content ch) = false) st.1 /\
  Shape.has_char c st.2 = false.
Proof.
  intros Hsplits. revert chunks current.
  induction Hsplits as [|split splits Hsplit _ IH]; intros chunks current Hchunks Hcur;
    cbn [fold_left].
  - split; assumption.
  - cbn zeta in IH |- *.
    destruct (Z.lt_ge_cases (chunk_size self) (Str.len current + Str.len split))
      as [Hclose|Hextend].
    + rewrite chunk_step_close by assumption. apply IH.
      * apply Forall_app. split; [exact Hchunks|].
        constructor; [exact Hcur | constructor].
      * rewrite has_char_app, Hsplit, orb_false_r. unfold seed.
        destruct (0 <? chunk_overlap self); [|reflexivity].
        apply has_char_drop, Hsplit.
    + rewrite chunk_step_extend by lia.
      apply IH; [exact Hchunks|]. rewrite has_char_app, Hcur, Hsplit. reflexivity.
Qed.

Lemma chunks_of_splits_without_char (c : ascii) (splits : list string) :
  Forall (fun unit => Shape.has_char c unit = false) splits ->
  Forall (fun ch => Shape.has_char c (content ch) = false)
         (chunks_of_splits self path splits).
Proof.
  intros Hsplits. unfold chunks_of_splits, chunk_loop.
  pose proof (chunk_loop_without_char c splits [] "" Hsplits) as H.
  cbn zeta in H. specialize (H (Forall_nil_2 _) eq_refl).
  destruct (fold_left _ _ _) as [chunks current]. cbn [fst snd] in H.
  destruct H as [Hchunks Hcur].
  destruct (Str.truthy current); [|exact Hchunks].
  unfold close_chunk. apply Forall_app. split; [exact Hchunks|].
  constructor; [exact Hcur | constructor].
Qed.

End ChunkLoop.

(** ** The chunker, beyond the budget *)

Section ChunkerMore.

Import Chunking.

Variable markdown_to_html soup_get_text : string -> result string.
Variable ast_parse : string -> result ast_node.

Local Abbreviation chunk_code := (chunk_code markdown_to_html soup_get_text ast_parse).
Local Abbreviation split_units := (split_units markdown_to_html soup_get_text ast_parse).

(** X1.  In every list of chunks that [chunk_code] returns, the chunk at
    position [i] carries the path of the file and [i * chunk_size] as
    its [start_line], whatever the lengths of the chunks before it. *)
Theorem chunk_code_numbers_chunks
    (self : CodeChunker) (text path : string) (chunks : list chunk) :
  chunk_code self text path = inl chunks ->
  forall (i : nat) (c : chunk),
    chunks !! i = Some c ->
    start_line c = Z.of_nat i * chunk_size self /\ file_path c = path.
Proof.
  unfold Chunking.chunk_code. destruct (split_units text path) as [units|e]; [|discriminate].
  intros [= <-]. apply chunks_of_splits_numbered.
Qed.

(** X2.  With an overlap that is not positive, chunking neither drops
    nor repeats a character of the split units: the contents of the
    chunks, joined, are the split units, joined. *)
Theorem chunks_join_to_units_without_overlap
    (self : CodeChunker) (text path : string) (units : list string) :
  chunk_overlap self <= 0 ->
  split_units text path = inl units ->
  exists chunks,
    chunk_code self text path = inl chunks /\
    Shape.join (map content chunks) = Shape.join units.
Proof.
  intros Hov Hunits. unfold Chunking.chunk_code. rewrite Hunits.
  eexists. split; [reflexivity|]. apply chunks_of_splits_join, Hov.
Qed.

(** X3.  For a file with one of the code suffixes, split at keywords,
    and an overlap that is not positive, the contents of the chunks,
    joined, are the text of the file: the keyword split keeps its
    separators. *)
Theorem code_file_chunks_join_to_text
    (self : CodeChunker) (text path : string) :
  chunk_overlap self <= 0 ->
  Str.endswith path ".md" = false ->
  Str.endswith path ".py" = false ->
  Str.endswith_any path code_suffixes = true ->
  exists chunks,
    chunk_code self text path = inl chunks /\
    Shape.join (map content chunks) = text.
Proof.
  intros Hov Hmd Hpy Hcode.
  assert (Hunits : split_units text path = inl (Str.re_split_group keywords text)).
  { unfold Chunking.split_units, splits_of. rewrite Hmd, Hpy, Hcode. reflexivity. }
  destruct (chunks_join_to_units_without_overlap self text path _ Hov Hunits)
    as (chunks & Hchunks & Hjoin).
  exists chunks. split; [exact Hchunks|]. rewrite Hjoin.
  unfold Str.re_split_group. rewrite (re_split_from_join _ _ keywords_not_empty).
  reflexivity.
Qed.

(** X4.  For a file that falls to the generic line split, no chunk holds
    a line feed: the lines are put one after the other with nothing
    between them. *)
Theorem generic_chunks_hold_no_line_feed
    (self : CodeChunker) (text path : string) :
  Str.endswith path ".md" = false ->
  Str.endswith path ".py" = false ->
  Str.endswith_any path code_suffixes = false ->
  Str.endswith_any path line_suffixes = false ->
  exists chunks,
    chunk_code self text path = inl chunks /\
    Forall (fun c => Shape.has_char LF (content c) = false) chunks.
Proof.
  intros Hmd Hpy Hcode Hline.
  unfold Chunking.chunk_code, Chunking.split_units, splits_of.
  rewrite Hmd, Hpy, Hcode, Hline. eexists. split; [reflexivity|].
  apply chunks_of_splits_without_char. apply split_lf_from_no_lf. reflexivity.
Qed.

(** X5.  When the first split unit alone is longer than the budget, the
    first chunk returned is the empty string. *)
Theorem first_chunk_empty_when_first_unit_too_long
    (self : CodeChunker) (text path unit : string) (rest : list string) :
  split_units text path = inl (unit :: rest) ->
  chunk_size self < Str.len unit ->
  exists more,
    chunk_code self text path = inl (Chunk "" path 0 :: more).
Proof.
  intros Hunits Hlong. unfold Chunking.chunk_code. rewrite Hunits.
  unfold chunks_of_splits, chunk_loop. cbn [fold_left].
  rewrite chunk_step_close by (change (Str.len "") with 0; lia).
  destruct (chunk_loop_appends self path rest [Chunk "" path (Z.of_nat 0 * chunk_size self)]
              (seed self unit +:+ unit)) as (more & Hmore).
  cbn [app length] in Hmore |- *.
  destruct (fold_left _ _ _) as [chunks current]. cbn [fst] in Hmore. subst chunks.
  destruct (Str.truthy current); eexists; unfold close_chunk; cbn [app]; reflexivity.
Qed.

(** A level of nodes without definitions gives no marker, at any depth. *)
Lemma no_marker_without_definitions (fuel : nat) (level : list ast_node) :
  Forall (fun n => Shape.defines_nothing n = true) level ->
  flat_map marker (walk_levels fuel level) = [].
Proof.
  revert level. induction fuel as [|fuel IH]; intros level Hlevel; [reflexivity|].
  cbn [walk_levels]. destruct level as [|n level]; [reflexivity|].
  rewrite flat_map_app, IH.
  - rewrite app_nil_r. induction Hlevel as [|m ms Hm _ IHms]; [reflexivity|].
    cbn [flat_map]. rewrite IHms. destruct m; try discriminate Hm. reflexivity.
  - induction Hlevel as [|m ms Hm _ IHms]; [constructor|].
    cbn [flat_map]. apply Forall_app. split; [|exact IHms].
    destruct m; try discriminate Hm. cbn [child_nodes Shape.defines_nothing] in *.
    apply List.Forall_forall. intros x Hx.
    exact (proj1 (List.forallb_forall _ _) Hm x Hx).
Qed.

(** X6.  A Python file that parses and defines no function and no class
    gives no chunk at all, whatever its text. *)
Theorem python_without_definitions_gives_no_chunk
    (self : CodeChunker) (text path : string) (tree : ast_node) :
  Str.endswith path ".md" = false ->
  Str.endswith path ".py" = true ->
  ast_parse text = inl tree ->
  Shape.defines_nothing tree = true ->
  chunk_code self text path = inl [].
Proof.
  intros Hmd Hpy Hparse Hnone.
  unfold Chunking.chunk_code, Chunking.split_units, splits_of, process_python.
  rewrite Hmd, Hpy, Hparse. unfold walk.
  rewrite no_marker_without_definitions; [reflexivity|].
  constructor; [exact Hnone | constructor].
Qed.

End ChunkerMore.

(** ** File suffixes *)

Lemma endswith_tail (s suf : string) (k : nat) :
  Str.endswith s suf = true -> (k <= String.length suf)%nat ->
  Str.drop (String.length s - k) s = Str.drop (String.length suf - k) suf.
Proof.
  unfold Str.endswith. intros H Hk. apply andb_prop in H. destruct H as [Hlen Heq].
  apply Nat.leb_le in Hlen. apply String.eqb_eq in Heq.
  rewrite <- Heq at 2. rewrite drop_drop. f_equal. lia.
Qed.

(** Two suffixes whose last two characters differ never both end the
    same path. *)
Lemma endswith_exclusive (s suf1 suf2 : string) :
  Str.endswith s suf1 = true ->
  (2 <= String.length suf1)%nat -> (2 <= String.length suf2)%nat ->
  Str.drop (String.length suf1 - 2) suf1 <> Str.drop (String.length suf2 - 2) suf2 ->
  Str.endswith s suf2 = false.
Proof.
  intros H1 Hl1 Hl2 Hne. destruct (Str.endswith s suf2) eqn:H2; [|reflexivity].
  exfalso. apply Hne.
  rewrite <- (endswith_tail s suf1 2 H1 Hl1), <- (endswith_tail s suf2 2 H2 Hl2).
  reflexivity.
Qed.

Lemma unlisted_suffix_is_not_allowed (path suffix : string) :
  In suffix Shape.unlisted_suffixes ->
  Str.endswith path suffix = true ->
  Str.endswith_any path Indexing.allowed_suffixes = false.
Proof.
  intros Hin Hends. unfold Str.endswith_any, Indexing.allowed_suffixes.
  cbn [existsb].
  repeat (destruct Hin as [<-|Hin];
          [repeat (rewrite (endswith_exclusive path _ _ Hends);
                   [|cbn; lia|cbn; lia|vm_compute; discriminate]);
           reflexivity|]).
  contradiction.
Qed.

(** ** The indexer, beyond the set of indexed files *)

Section IndexerMore.

Import Py Observe Indexing.

Context {World Emb : Type} (C : collaborators World Emb).
Variable cfg : Settings.

Local Abbreviation indexing := (fun ev : event Emb => indexing_event ev = true).

#[local] Hint Resolve fresh_ids_events add_documents_events embed_chunks_events
  process_file_events extract_archive_events store_result_events
  index_archive_events process_github_repository_events : frame.

(** X7.  A file whose name has none of the accepted suffixes is read and
    dropped: the result is empty, the set of indexed files is unchanged,
    and after the read at most one record is logged and nothing else
    happens. *)
Theorem file_outside_allow_list_is_dropped
    (path repo : string) (st : state World Emb) :
  Str.endswith_any path allowed_suffixes = false ->
  (_process_file C path repo st).1 = inl [] /\
  indexed_files (_process_file C path repo st).2 = indexed_files st /\
  exists evs,
    trace (_process_file C path repo st).2 = trace st ++ ReadFileCall path :: evs /\
    (evs = [] \/ exists level msg, evs = [Log level msg]).
Proof.
  intros Hsuffix. unfold _process_file, process_file_body. run.
  destruct (read_file C path (world st)) as [[content|e] w]; run.
  - destruct (decode_text C content) as [text|]; run.
    + rewrite Hsuffix. cbn [negb]. run.
      split; [reflexivity|]. split; [reflexivity|]. exists []. split; [reflexivity|].
      left. reflexivity.
    + split; [reflexivity|]. split; [reflexivity|]. eexists.
      rewrite <- app_assoc. split; [reflexivity|]. right. eauto.
  - split; [reflexivity|]. split; [reflexivity|]. eexists.
    rewrite <- app_assoc. split; [reflexivity|]. right. eauto.
Qed.

(** X8.  The chunker has a rule for the suffixes [.cs], [.rb], [.php],
    [.go] and [.csv], and [_process_file] accepts none of them: such a
    file is never chunked, embedded or added to the set. *)
Theorem unlisted_suffix_is_never_indexed
    (path suffix repo : string) (st : state World Emb) :
  In suffix Shape.unlisted_suffixes ->
  Str.endswith path suffix = true ->
  In suffix (Chunking.code_suffixes ++ Chunking.line_suffixes) /\
  (_process_file C path repo st).1 = inl [] /\
  indexed_files (_process_file C path repo st).2 = indexed_files st /\
  exists evs,
    trace (_process_file C path repo st).2 = trace st ++ evs /\
    encode_calls evs = [] /\ add_calls evs = O.
Proof.
  intros Hin Hends. split.
  - cbn in Hin |- *. intuition (subst; auto 20).
  - pose proof (unlisted_suffix_is_not_allowed path suffix Hin Hends) as Hsuffix.
    unfold _process_file, process_file_body. run.
    destruct (read_file C path (world st)) as [[content|e] w]; run.
    + destruct (decode_text C content) as [text|]; run.
      * rewrite Hsuffix. cbn [negb]. run.
        split; [reflexivity|]. split; [reflexivity|]. eexists.
        split; [reflexivity|]. split; reflexivity.
      * split; [reflexivity|]. split; [reflexivity|]. eexists.
        rewrite <- app_assoc. split; [reflexivity|]. split; reflexivity.
    + split; [reflexivity|]. split; [reflexivity|]. eexists.
      rewrite <- app_assoc. split; [reflexivity|]. split; reflexivity.
Qed.

(** X9.  An archive whose name ends neither in [.tar.gz] nor in [.zip]
    raises [ValueError] and nothing else happens: no archive is opened,
    nothing is extracted and nothing is logged. *)
Theorem unsupported_archive_format_raises
    (archive_path extract_dir : string) (st : state World Emb) :
  Str.endswith archive_path ".tar.gz" = false ->
  Str.endswith archive_path ".zip" = false ->
  _extract_archive C archive_path extract_dir st =
    (inr (Exception_ "ValueError" ("Unsupported archive format: " +:+ archive_path)),
     st).
Proof.
  intros Htar Hzip. unfold _extract_archive, extract_archive_body.
  rewrite Htar, Hzip. run. cbn. destruct st; reflexivity.
Qed.

(** The body of the [with] block only records events of an indexing
    pass. *)
Lemma with_block_cleans_up (d : string) (body : M unit) (st : state World Emb) :
  respects indexing body ->
  exists evs,
    trace (finally body (effect (CleanupCall d) (cleanup C d)) st).2
      = trace st ++ evs ++ [CleanupCall d] /\
    (finally body (effect (CleanupCall d) (cleanup C d)) st).1 = (body st).1.
Proof.
  intros Hbody. unfold finally. destruct (Hbody st) as [_ (evs & Htrace & _)].
  destruct (body st) as [r st1]. cbn [snd fst] in *. unfold effect. cbn [snd fst trace].
  exists evs. rewrite Htrace, app_assoc. split; reflexivity.
Qed.

(** The [with] block of a repository: the directory made is released
    at the end, whatever happens in between. *)
Lemma index_archive_cleans_up (archive_name : string) (archive : bytes)
    (repo : string) (st : state World Emb) (temp_dir : string) (w : World) :
  mkdtemp C (world st) = (inl temp_dir, w) ->
  exists evs,
    trace (index_archive C archive_name archive repo st).2
      = trace st ++ MkdtempCall :: evs ++ [CleanupCall temp_dir].
Proof.
  intros Hmk. unfold index_archive. unfold bind at 1. unfold call at 1.
  rewrite Hmk.
  match goal with
  | |- context [finally ?body ?f ?s] =>
      assert (Hbody : respects indexing body) by frame;
      destruct (with_block_cleans_up temp_dir body s Hbody) as (evs & Htrace & _)
  end.
  exists evs. rewrite Htrace. cbn [trace]. rewrite <- app_assoc. reflexivity.
Qed.

(** X10.  Once the temporary directory of a GitHub repository exists, it
    is released on every way out of [_process_github_repository]: the
    release is recorded after everything done in the directory, and at
    most the record of the error follows it. *)
Theorem temporary_directory_is_always_released
    (repo_url : string) (st : state World Emb)
    (zip_content : bytes) (w w' : World) (temp_dir : string) :
  download_github_repository C repo_url (world st) = (inl zip_content, w) ->
  zip_content <> [] ->
  mkdtemp C w = (inl temp_dir, w') ->
  exists evs after,
    trace (_process_github_repository C repo_url st).2
      = trace st
          ++ [Log "INFO" ("Processing GitHub repository: " +:+ repo_url);
              FetchGithubCall repo_url; MkdtempCall]
          ++ evs ++ CleanupCall temp_dir :: after /\
    (after = [] \/ exists msg, after = [Log "ERROR" msg]).
Proof.
  intros Hfetch Hne Hmk. unfold _process_github_repository.
  unfold try_except, bind, log, emit, call. cbn [world trace]. rewrite Hfetch.
  destruct zip_content as [|b zip_content]; [contradiction|]. cbn [is_empty].
  match goal with
  | |- context [index_archive C ?n ?a ?r ?s] =>
      destruct (index_archive_cleans_up n a r s temp_dir w' Hmk) as (evs & Htrace);
      destruct (index_archive C n a r s) as [[[]|e] st1]
  end; cbn [snd trace] in Htrace |- *.
  - exists evs, []. rewrite Htrace, <- !app_assoc. split; [reflexivity | left; reflexivity].
  - exists evs. eexists. unfold raise. cbn [snd trace].
    rewrite Htrace, <- !app_assoc. cbn [app]. rewrite <- !app_assoc.
    split; [reflexivity|]. right. eauto.
Qed.

(** X11.  When the host sends no byte, processing the repository returns
    normally after one error record: no temporary directory is made and
    nothing is extracted, for a GitHub and for a Gerrit repository
    alike. *)
Theorem empty_payload_is_skipped (repo : string) (st : state World Emb) :
  (forall w,
      download_github_repository C repo (world st) = (inl [], w) ->
      _process_github_repository C repo st =
        (inl tt,
         State w
           (trace st
              ++ [Log "INFO" ("Processing GitHub repository: " +:+ repo);
                  FetchGithubCall repo;
                  Log "ERROR" ("Empty zip content received for " +:+ repo +:+ ", skipping")])
           (indexed_files st) (last_indexed st))) /\
  (forall w,
      get_repository_content C repo (world st) = (inl [], w) ->
      _process_repository C repo st =
        (inl tt,
         State w
           (trace st
              ++ [Log "INFO" ("Processing Gerrit repository: " +:+ repo);
                  FetchGerritCall repo;
                  Log "ERROR" ("Empty tar content received for " +:+ repo +:+ ", skipping")])
           (indexed_files st) (last_indexed st))).
Proof.
  split; intros w Hfetch.
  - unfold _process_github_repository. run. rewrite Hfetch. run. cbn [is_empty]. run.
    rewrite <- !app_assoc. reflexivity.
  - unfold _process_repository. run. rewrite Hfetch. run. cbn [is_empty]. run.
    rewrite <- !app_assoc. reflexivity.
Qed.

(** X12.  When the listing of the Gerrit projects raises, the turn of
    the scheduler fetches no repository at all, the GitHub ones
    included, leaves the time of the last indexing as it was and sleeps
    fifteen minutes. *)
Theorem gerrit_failure_stops_the_whole_pass
    (st : state World Emb) (e : exception) (w : World) :
  get_repositories C (world st) = (inr e, w) ->
  run_indexing_turn C cfg st =
    (inl tt,
     State (sleep C 900 w)
       (trace st
          ++ [Log "INFO" "Starting repository indexing";
              ListGerritCall;
              Log "ERROR" ("Error indexing repositories: " +:+ exc_msg e);
              Log "ERROR" ("Error during indexing: " +:+ exc_msg e);
              SleepCall 900])
       (indexed_files st) (last_indexed st)).
Proof.
  intros Hlist. unfold run_indexing_turn, index_repositories. run.
  rewrite Hlist. run. change (15 * 60) with 900.
  rewrite <- !app_assoc. reflexivity.
Qed.

(** [fresh_ids] draws one identifier per document and records nothing. *)
Lemma fresh_ids_run (n : nat) (st : state World Emb) :
  exists ids w,
    Services.fresh_ids C n st
      = (inl ids, State w (trace st) (indexed_files st) (last_indexed st)) /\
    length ids = n.
Proof.
  revert st. induction n as [|n IH]; intros st; cbn [Services.fresh_ids].
  - exists [], (world st). run. destruct st; split; reflexivity.
  - run. destruct (uuid4 C (world st)) as [id w1]. run.
    match goal with
    | |- context [Services.fresh_ids C n ?s] =>
        destruct (IH s) as (ids & w & Hrun & Hlen); rewrite Hrun
    end.
    run. exists (id :: ids), w. split; [reflexivity|]. cbn [length]. congruence.
Qed.

(** X13.  [add_documents] draws one fresh identifier per document and
    makes one call of [collection.add] with them.  When that call
    returns, so does [add_documents]; when it raises, [add_documents]
    logs the exception and raises the very same exception. *)
Theorem add_documents_one_id_per_document
    (docs : list string) (embs : list Emb) (metas : list metadata)
    (st : state World Emb) :
  exists ids w,
    Services.fresh_ids C (length docs) st
      = (inl ids, State w (trace st) (indexed_files st) (last_indexed st)) /\
    length ids = length docs /\
    Services.add_documents C docs embs metas st =
      match collection_add C docs embs metas ids w with
      | (inl done, w') =>
          (inl done,
           State w' (trace st ++ [CollectionAdd docs embs metas ids])
                 (indexed_files st) (last_indexed st))
      | (inr e, w') =>
          (inr e,
           State w'
                 (trace st ++
                    [CollectionAdd docs embs metas ids;
                     Log "ERROR"
                         ("Error adding documents to vector store: " +:+ exc_msg e)])
                 (indexed_files st) (last_indexed st))
      end.
Proof.
  destruct (fresh_ids_run (length docs) st) as (ids & w & Hrun & Hlen).
  exists ids, w. split; [exact Hrun|]. split; [exact Hlen|].
  unfold Services.add_documents. run. rewrite Hrun. run.
  destruct (collection_add C docs embs metas ids w) as [[done|e] w']; run.
  - reflexivity.
  - rewrite <- app_assoc. reflexivity.
Qed.

End IndexerMore.

(** ** Batches *)

Section Batches.

Import Py Observe Indexing.

Context {World Emb : Type} (C : collaborators World Emb).

Local Abbreviation enriched := (@Shape.enriched Emb).

Lemma embed_chunks_enriches repo path file_id file_hash chunks
    (st : state World Emb) (embedded : list (Emb * metadata)) :
  (embed_chunks C repo path file_id file_hash chunks st).1 = inl embedded ->
  Forall2 (enriched repo file_id file_hash) chunks embedded.
Proof.
  revert st embedded. induction chunks as [|chunk rest IH]; intros st embedded;
    cbn [embed_chunks].
  - run. intros [= <-]. constructor.
  - run. destruct (encode C (Chunking.content chunk) (world st)) as [[emb|e] w]; run;
      [|discriminate].
    destruct (now C w) as [t w']. run.
    match goal with
    | |- context [embed_chunks C repo path file_id file_hash rest ?s] =>
        specialize (IH s);
        destruct (embed_chunks C repo path file_id file_hash rest s) as [[more|e] st1]
    end; run; [|discriminate].
    intros [= <-]. constructor; [|apply IH; reflexivity].
    repeat split.
Qed.

(** A result of [_process_file] that is not empty is one batch, built
    from the chunks of the file and what [embed_chunks] returned for
    them, and the identity of the file is in the set afterwards. *)
Lemma process_file_batch (path repo : string) (st : state World Emb)
    (b : batch Emb) (bs : list (batch Emb)) :
  (_process_file C path repo st).1 = inl (b :: bs) ->
  exists content text chunks embedded,
    chunk_file C text path = inl chunks /\
    Forall2 (enriched repo (make_file_id repo path (sha256_hexdigest C content))
                      (sha256_hexdigest C content)) chunks embedded /\
    b = Batch (map fst embedded) (map Chunking.content chunks) (map snd embedded) /\
    bs = [] /\
    make_file_id repo path (sha256_hexdigest C content)
      ∈ indexed_files (_process_file C path repo st).2.
Proof.
  unfold _process_file, process_file_body. run.
  destruct (read_file C path (world st)) as [[content|e] w]; run; [|discriminate].
  destruct (decode_text C content) as [text|]; run; [|discriminate].
  destruct (Str.endswith_any path allowed_suffixes); cbn [negb]; run; [|discriminate].
  destruct (chunk_file C text path) as [chunks|e] eqn:Hchunks; run; [|discriminate].
  destruct (bool_decide _); run; [discriminate|].
  match goal with
  | |- context [embed_chunks C repo path ?i ?h chunks ?s] =>
      pose proof (embed_chunks_enriches repo path i h chunks s) as Henriched;
      destruct (embed_chunks C repo path i h chunks s) as [[embedded|e] st1]
  end; run; [|discriminate].
  intros [= <- <-]. exists content, text, chunks, embedded.
  split; [exact Hchunks|]. split; [apply Henriched; reflexivity|].
  split; [reflexivity|]. split; [reflexivity|].
  apply elem_of_union_l, elem_of_singleton_2. reflexivity.
Qed.

(** X14.  A result of [_process_file] holds at most one batch, and in it
    the three lists are parallel: as many embeddings and metadata
    records as documents.  Every metadata record names the repository
    and the path of the file, its identity is the one built from these
    and its hash, and that identity is then in the set of indexed
    files; the record at position [i] has [i * 1000] as start line. *)
Theorem batch_lists_are_parallel (path repo : string) (st : state World Emb)
    (b : batch Emb) (bs : list (batch Emb)) :
  (_process_file C path repo st).1 = inl (b :: bs) ->
  bs = [] /\
  length (embeddings b) = length (documents b) /\
  length (metadatas b) = length (documents b) /\
  forall (i : nat) (m : metadata),
    metadatas b !! i = Some m ->
    md_repo_name m = repo /\
    md_file_path m = path /\
    md_start_line m = Z.of_nat i * 1000 /\
    md_file_id m = make_file_id repo path (md_file_hash m) /\
    md_file_id m ∈ indexed_files (_process_file C path repo st).2.
Proof.
  intros Hres.
  destruct (process_file_batch path repo st b bs Hres)
    as (content & text & chunks & embedded & Hchunks & Henriched & -> & -> & Hseen).
  pose proof (Forall2_length _ _ _ Henriched) as Hlen.
  split; [reflexivity|]. cbn [embeddings documents metadatas].
  rewrite !length_map. split; [congruence|]. split; [congruence|].
  intros i m Hlookup.
  change (map snd embedded) with (snd <$> embedded) in Hlookup.
  apply list_lookup_fmap_Some in Hlookup. destruct Hlookup as (em & -> & Hem).
  destruct (Forall2_lookup_r _ _ _ _ _ Henriched Hem)
    as (chunk & Hchunk & Hpath & Hline & Hrepo & Hid & Hhash).
  unfold chunk_file, Chunking.chunk_code in Hchunks.
  destruct (Chunking.split_units _ _ _ text path) as [units|e]; [|discriminate].
  injection Hchunks as <-.
  destruct (chunks_of_splits_numbered chunker path units i chunk Hchunk)
    as [Hnumber Hfile].
  split; [exact Hrepo|]. split; [congruence|].
  split; [rewrite Hline; exact Hnumber|].
  split; [rewrite Hid, Hhash; reflexivity|]. rewrite Hid. exact Hseen.
Qed.

End Batches.

(** ** The retrieval pipeline, beyond the retry *)

Lemma rmap_length {A B} (f : A -> result B) (l : list A) (l' : list B) :
  Rag.rmap f l = inl l' -> length l' = length l.
Proof.
  revert l'. induction l as [|x l IH]; intros l'; cbn [Rag.rmap].
  - intros [= <-]. reflexivity.
  - unfold Rag.rbind at 1. destruct (f x) as [y|e]; [|discriminate].
    unfold Rag.rbind. destruct (Rag.rmap f l) as [ys|e]; [|discriminate].
    intros [= <-]. cbn [length]. f_equal. apply IH. reflexivity.
Qed.

Lemma rmap_lookup {A B} (f : A -> result B) (l : list A) (l' : list B)
    (i : nat) (y : B) :
  Rag.rmap f l = inl l' -> l' !! i = Some y ->
  exists x, l !! i = Some x /\ f x = inl y.
Proof.
  revert l' i. induction l as [|x l IH]; intros l' i; cbn [Rag.rmap].
  - intros [= <-] Hlookup. discriminate Hlookup.
  - unfold Rag.rbind at 1. destruct (f x) as [y0|e] eqn:Hfx; [|discriminate].
    unfold Rag.rbind. destruct (Rag.rmap f l) as [ys|e]; [|discriminate].
    intros [= <-] Hlookup. destruct i as [|i].
    + injection Hlookup as <-. exists x. split; [reflexivity | exact Hfx].
    + destruct (IH ys i eq_refl Hlookup) as (x' & Hx' & Hfx').
      exists x'. split; assumption.
Qed.

(** X16.  The chunks that [_retrieve_relevant_chunks] builds from an
    answer of the store are the documents of the first inner list, all
    of them and in the order of the store, each with the metadata at
    the same position. *)
Theorem retrieved_chunks_keep_store_order
    (results : Py.query_result) (chunks : list Rag.retrieved) :
  Rag.pair_up results = inl chunks ->
  exists docs0,
    Py.qr_documents results !! 0%nat = Some docs0 /\
    map Rag.r_content chunks = docs0 /\
    forall (i : nat) (c : Rag.retrieved),
      chunks !! i = Some c ->
      exists metas0,
        Py.qr_metadatas results !! 0%nat = Some metas0 /\
        metas0 !! i = Some (Rag.r_metadata c).
Proof.
  unfold Rag.pair_up, Rag.list_getitem. unfold Rag.rbind at 1.
  destruct (Py.qr_documents results !! 0%nat) as [docs0|] eqn:Hdocs; [|discriminate].
  intros Hmap. exists docs0. split; [reflexivity|].
  assert (Hat : forall i c, chunks !! i = Some c ->
            docs0 !! i = Some (Rag.r_content c) /\
            exists metas0, Py.qr_metadatas results !! 0%nat = Some metas0 /\
                           metas0 !! i = Some (Rag.r_metadata c)).
  { intros i c Hc. destruct (rmap_lookup _ _ _ i c Hmap Hc) as (j & Hj & Hpair).
    apply lookup_seq in Hj. destruct Hj as [-> _]. cbn [Nat.add] in Hpair.
    unfold Rag.rbind in Hpair.
    destruct (docs0 !! i) as [doc|]; [|discriminate].
    destruct (Py.qr_metadatas results !! 0%nat) as [metas0|]; [|discriminate].
    destruct (metas0 !! i) as [meta|] eqn:Hmeta; [|discriminate].
    injection Hpair as <-. cbn [Rag.r_content Rag.r_metadata].
    split; [reflexivity|]. exists metas0. split; [reflexivity | exact Hmeta]. }
  split.
  - apply list_eq. intros i. change (map Rag.r_content chunks) with (Rag.r_content <$> chunks).
    rewrite list_lookup_fmap.
    destruct (chunks !! i) as [c|] eqn:Hc; cbn [fmap option_fmap option_map].
    + symmetry. apply (Hat i c Hc).
    + symmetry. apply lookup_ge_None. apply lookup_ge_None in Hc.
      apply rmap_length in Hmap. rewrite length_seq in Hmap. lia.
  - intros i c Hc. apply (Hat i c Hc).
Qed.

(** When the context could be built, a chunk without [file_type] makes
    the list of sources raise [KeyError]. *)
Lemma sources_raise_without_file_type (chunks : list Rag.retrieved)
    (context : string) :
  Rag._prepare_context chunks = inl context ->
  Exists (fun c => Rag.r_metadata c !! "file_type" = None) chunks ->
  Rag.rmap Rag.source_of chunks = inr (Exception_ "KeyError" "file_type").
Proof.
  unfold Rag._prepare_context. unfold Rag.rbind at 1.
  destruct (Rag.rmap Rag.context_part chunks) as [parts|e] eqn:Hparts; [|discriminate].
  intros _. clear context. revert parts Hparts.
  induction chunks as [|c cs IH]; intros parts Hparts Hex.
  - inversion Hex.
  - cbn [Rag.rmap] in Hparts |- *. unfold Rag.rbind at 1 in Hparts.
    destruct (Rag.context_part c) as [p|e] eqn:Hp; [|discriminate].
    unfold Rag.rbind in Hparts.
    destruct (Rag.rmap Rag.context_part cs) as [ps|e] eqn:Hps; [|discriminate].
    unfold Rag.context_part, Rag.rbind, Rag.getitem in Hp.
    unfold Rag.rbind at 1.
    destruct (Rag.source_of c) as [src|e] eqn:Hsrc;
      unfold Rag.source_of, Rag.rbind, Rag.getitem in Hsrc;
      destruct (Rag.r_metadata c !! "file_path") as [fp|]; try discriminate;
      destruct (Rag.r_metadata c !! "repo_name") as [rn|]; try discriminate;
      destruct (Rag.r_metadata c !! "file_type") as [ft|] eqn:Hft; try discriminate.
    + inversion Hex as [? ? Hhead|? ? Htail]; subst.
      * rewrite Hft in Hhead. discriminate Hhead.
      * rewrite (IH ps eq_refl Htail). reflexivity.
    + injection Hsrc as <-. reflexivity.
Qed.

Section RetrievalMore.

Import Py Observe Rag.

Context {World Emb : Type} (C : collaborators World Emb).
Variable cfg : Settings.

Ltac unfold_pipeline :=
  unfold process_query, _create_embedding, _retrieve_relevant_chunks,
    Tenacity.retry, retrieve_once, Services.query, Services.generate_response;
  cbn [Nat.sub Tenacity.attempts]; run;
  change (Tenacity.wait_exponential 1 4 10 1) with 4;
  change (Tenacity.wait_exponential 1 4 10 (1 + 1)) with 4.

(** X17.  When the store fails on all three attempts, [process_query]
    raises [RetryError]: after three store queries and two waits of 4
    seconds it gives up, without a wait after the last failure and
    without calling the language model. *)
Theorem three_failures_raise_retry_error
    (query : string) (top_k : Z) (system_prompt : option string)
    (st : state World Emb) (emb : Emb) (w1 w2 w3 w4 : World)
    (e1 e2 e3 : exception) :
  encode C query (world st) = (inl emb, w1) ->
  collection_query C emb top_k w1 = (inr e1, w2) ->
  collection_query C emb top_k (sleep C 4 w2) = (inr e2, w3) ->
  collection_query C emb top_k (sleep C 4 w3) = (inr e3, w4) ->
  exists evs e,
    process_query C cfg query top_k system_prompt st =
      (inr e, State w4 (trace st ++ evs) (indexed_files st) (last_indexed st)) /\
    exc_class e = "RetryError" /\
    query_calls evs = 3%nat /\
    sleeps evs = [4; 4] /\
    llm_calls evs = O.
Proof.
  intros Hencode Hq1 Hq2 Hq3. unfold_pipeline.
  rewrite Hencode. run. rewrite Hq1. run. rewrite Hq2. run. rewrite Hq3. run.
  do 2 eexists. rewrite <- !app_assoc. split; [reflexivity|]. repeat split; reflexivity.
Qed.

(** X18.  Every answer that [process_query] returns names the model of
    the settings, has no token count, and counts as retrieved exactly
    as many chunks as it lists sources. *)
Theorem answer_counts_its_sources
    (query : string) (top_k : Z) (system_prompt : option string)
    (st st' : state World Emb) (ans : answer) :
  process_query C cfg query top_k system_prompt st = (inl ans, st') ->
  a_model ans = LLM_MODEL cfg /\
  a_chunks_retrieved ans = Z.of_nat (length (a_sources ans)) /\
  a_prompt_tokens ans = None /\
  a_completion_tokens ans = None.
Proof.
  unfold_pipeline.
  repeat (match goal with
          | |- context [encode C ?q ?w] => destruct (encode C q w) as [[?|?] ?]
          | |- context [collection_query C ?e ?k ?w] =>
              destruct (collection_query C e k w) as [[?|?] ?]
          | |- context [agenerate C ?p ?w] => destruct (agenerate C p w) as [[?|?] ?]
          | |- context [pair_up ?r] => destruct (pair_up r) as [?|?]
          | |- context [_prepare_context ?c] => destruct (_prepare_context c) as [?|?]
          | |- context [rmap source_of ?c] =>
              destruct (rmap source_of c) as [?|?] eqn:?
          end; run);
    try discriminate;
    (intros [= <- <-]; cbn [a_model a_chunks_retrieved a_sources a_prompt_tokens
                             a_completion_tokens Services.model];
     repeat split;
     match goal with
     | H : rmap source_of _ = inl _ |- _ => apply rmap_length in H; rewrite H; reflexivity
     end).
Qed.

(** X19.  A retrieved chunk whose metadata has the path and the
    repository but no [file_type] costs a generation: the language
    model is called, and only then does [process_query] raise
    [KeyError] for the missing key. *)
Theorem missing_file_type_raises_after_generation
    (query : string) (top_k : Z) (system_prompt : option string)
    (st : state World Emb) (emb : Emb) (w1 w2 w3 : World)
    (results : query_result) (chunks : list retrieved)
    (context text : string) :
  encode C query (world st) = (inl emb, w1) ->
  collection_query C emb top_k w1 = (inl results, w2) ->
  pair_up results = inl chunks ->
  _prepare_context chunks = inl context ->
  Exists (fun c => r_metadata c !! "file_type" = None) chunks ->
  agenerate C (Services.format_prompt context query) w2 = (inl text, w3) ->
  exists evs e,
    process_query C cfg query top_k system_prompt st =
      (inr e, State w3 (trace st ++ evs) (indexed_files st) (last_indexed st)) /\
    exc_class e = "KeyError" /\
    query_calls evs = 1%nat /\
    llm_calls evs = 1%nat.
Proof.
  intros Hencode Hquery Hpair Hcontext Hmissing Hllm. unfold_pipeline.
  rewrite Hencode. run. rewrite Hquery. run. rewrite Hpair. run.
  rewrite Hcontext. run. rewrite Hllm. run.
  rewrite (sources_raise_without_file_type chunks context Hcontext Hmissing).
  run. do 2 eexists. rewrite <- !app_assoc. split; [reflexivity|].
  repeat split; reflexivity.
Qed.

End RetrievalMore.

(** ** The query endpoint *)

Section Endpoint.

Import Py Observe Api.

Context {World Emb : Type} (C : collaborators World Emb).
Variable cfg : Settings.

(** X20.  Whatever goes wrong in [query_code], the caller only ever sees
    an [HTTPException] with status 500. *)
Theorem endpoint_raises_only_http_500
    (request : QueryRequest Emb) (st st' : state World Emb) (e : exception) :
  query_code C cfg request st = (inr e, st') ->
  exists detail, e = http_500 detail.
Proof.
  unfold query_code, try_except.
  match goal with
  | |- context [match ?body st with _ => _ end] => destruct (body st) as [[r|e0] st1]
  end.
  - discriminate.
  - run. intros [= <- _]. exists (exc_msg e0). reflexivity.
Qed.

(** X21.  With an embedding in the request, the endpoint does not call
    the embedding model; when the store then answers with an empty list
    of documents, the endpoint returns the fixed answer without calling
    the language model. *)
Theorem endpoint_answers_empty_store_without_generation
    (text : string) (emb : Emb) (st : state World Emb) (w : World)
    (metadatas : list (list (gmap string string))) :
  collection_query C emb 5 (world st) = (inl (QueryResult [] metadatas), w) ->
  query_code C cfg {| query := text; query_embedding := Some emb |} st =
    (inl {| answer := "No relevant code found for your query.";
            source_files := [];
            model := LLM_MODEL cfg |},
     State w
       (trace st ++ [Log "INFO" ("Received query: " +:+ text);
                     CollectionQuery emb 5])
       (indexed_files st) (last_indexed st)).
Proof.
  intros Hquery. unfold query_code, Services.query. cbn [query query_embedding].
  run. rewrite Hquery. run. cbn [qr_documents Indexing.is_empty]. run.
  rewrite <- !app_assoc. reflexivity.
Qed.

(** X22.  When the store answers with one inner list that is empty, the
    shape of an answer without any match, the test of the endpoint does
    not hold: the language model is called with an empty context and
    its text is returned, not the fixed answer. *)
Theorem endpoint_generates_on_empty_inner_list
    (text : string) (emb : Emb) (st : state World Emb) (w1 w2 w3 : World)
    (other_metadatas : list (list (gmap string string))) (reply : string) :
  encode C text (world st) = (inl emb, w1) ->
  collection_query C emb 5 w1 = (inl (QueryResult [[]] ([] :: other_metadatas)), w2) ->
  agenerate C (Services.format_prompt "" text) w2 = (inl reply, w3) ->
  query_code C cfg {| query := text; query_embedding := None |} st =
    (inl {| answer := reply; source_files := []; model := LLM_MODEL cfg |},
     State w3
       (trace st ++ [Log "INFO" ("Received query: " +:+ text);
                     EncodeCall text; CollectionQuery emb 5;
                     LlmCall (Services.format_prompt "" text)])
       (indexed_files st) (last_indexed st)).
Proof.
  intros Hencode Hquery Hllm.
  unfold query_code, Services.query, Services.generate_response.
  cbn [query query_embedding]. run. rewrite Hencode. run. rewrite Hquery. run.
  cbn [qr_documents qr_metadatas Indexing.is_empty concat app String.concat]. run.
  rewrite Hllm. run.
  cbn [Rag.rbind Rag.list_getitem lookup list_lookup Rag.rmap
       Services.response Services.model].
  rewrite <- !app_assoc. reflexivity.
Qed.

End Endpoint.

(** ** The two phases of a repository pass *)

Section Phases.

Import Py Observe Indexing.

Context {World Emb : Type} (C : collaborators World Emb).
Variable cfg : Settings.

Local Abbreviation no_add := (fun ev : event Emb => Shape.is_add_call ev = false).
Local Abbreviation no_encode := (fun ev : event Emb => Shape.is_encode_call ev = false).

Lemma embed_chunks_adds_nothing repo path file_id file_hash chunks :
  respects no_add (embed_chunks C repo path file_id file_hash chunks).
Proof. induction chunks as [|c cs IH]; cbn [embed_chunks]; frame. Qed.

Lemma process_file_adds_nothing (path repo : string) :
  respects no_add (_process_file C path repo).
Proof.
  unfold _process_file, process_file_body. frame. apply embed_chunks_adds_nothing.
Qed.

Lemma extract_archive_adds_nothing (archive_path extract_dir : string) :
  respects no_add (_extract_archive C archive_path extract_dir).
Proof.
  unfold _extract_archive, extract_archive_body, warn_suspicious. frame.
Qed.

Lemma fresh_ids_encodes_nothing (n : nat) :
  respects no_encode (Services.fresh_ids C n).
Proof. induction n as [|n IH]; cbn [Services.fresh_ids]; frame. Qed.

Lemma store_result_encodes_nothing (result : list (batch Emb)) :
  respects no_encode (store_result C result).
Proof.
  unfold store_result, Services.add_documents. frame. apply fresh_ids_encodes_nothing.
Qed.

Local Abbreviation two_phases := (@Shape.two_phases World Emb _).

Lemma two_phases_first {A B} (c : @M World Emb A) (k : A -> @M World Emb B) :
  respects no_add c -> (forall a, two_phases (k a)) -> two_phases (bind c k).
Proof.
  intros Hc Hk st. unfold bind. destruct (Hc st) as [_ (evs & Htrace & Hall)].
  destruct (c st) as [[a|e] st1]; cbn [snd] in Htrace.
  - destruct (Hk a st1) as (before & after & Htrace' & Hbefore & Hafter).
    exists (evs ++ before), after. rewrite Htrace', Htrace, <- !app_assoc.
    split; [reflexivity|]. split; [apply Forall_app; split; assumption | exact Hafter].
  - exists evs, []. cbn [snd]. rewrite Htrace, app_nil_r.
    split; [reflexivity|]. split; [exact Hall | constructor].
Qed.

Lemma two_phases_last {A} (c : @M World Emb A) :
  respects no_encode c -> two_phases c.
Proof.
  intros Hc st. destruct (Hc st) as [_ (evs & Htrace & Hall)].
  exists [], evs. split; [exact Htrace|]. split; [constructor | exact Hall].
Qed.

Lemma two_phases_finally {A} (c : @M World Emb A) (ev : event Emb)
    (f : World -> World) :
  two_phases c -> no_encode ev -> two_phases (finally c (effect ev f)).
Proof.
  intros Hc Hev st. unfold finally, effect.
  destruct (Hc st) as (before & after & Htrace & Hbefore & Hafter).
  destruct (c st) as [r st1]. cbn [snd trace] in *.
  exists before, (after ++ [ev]). rewrite Htrace, <- !app_assoc.
  split; [reflexivity|]. split; [exact Hbefore|].
  apply Forall_app. split; [exact Hafter|]. constructor; [exact Hev | constructor].
Qed.

(** X23.  In the pass over one repository, every file is embedded before
    anything is written: in the events of the [with] block, no call of
    the embedding model comes after the first write to the store. *)
Theorem embedding_precedes_every_write
    (archive_name : string) (archive : bytes) (repo : string)
    (st : state World Emb) :
  exists before after,
    trace (index_archive C archive_name archive repo st).2
      = trace st ++ before ++ after /\
    add_calls before = O /\
    encode_calls after = [].
Proof.
  assert (Hphases : two_phases (index_archive C archive_name archive repo)).
  { unfold index_archive.
    apply two_phases_first; [frame|]. intros temp_dir.
    apply two_phases_finally; [|reflexivity].
    apply two_phases_first; [frame|]. intros _.
    apply two_phases_first; [frame|]. intros _.
    apply two_phases_first; [apply extract_archive_adds_nothing|]. intros _.
    apply two_phases_first; [frame|]. intros files.
    apply two_phases_first; [frame|]. intros _.
    apply two_phases_first.
    { apply respects_gather_map. intros file. apply process_file_adds_nothing. }
    intros results. apply two_phases_last.
    apply respects_for_each. intros result. apply store_result_encodes_nothing. }
  destruct (Hphases st) as (before & after & Htrace & Hbefore & Hafter).
  exists before, after. split; [exact Htrace|]. split.
  - clear Htrace. induction Hbefore as [|ev evs Hev _ IH]; [reflexivity|].
    unfold add_calls in *. cbn [List.filter].
    destruct ev; try exact IH. discriminate Hev.
  - clear Htrace. induction Hafter as [|ev evs Hev _ IH]; [reflexivity|].
    unfold encode_calls in *. cbn [flat_map]. rewrite IH.
    destruct ev; try reflexivity. discriminate Hev.
Qed.

(** X24.  While the listing of the Gerrit projects raises in every
    world, the scheduler records no indexing and fetches no GitHub
    repository, however many turns it runs, and sleeps fifteen minutes
    after each of them. *)
Theorem scheduler_starves_while_gerrit_is_down :
  (forall w, exists e w', get_repositories C w = (inr e, w')) ->
  forall (n : nat) (st : state World Emb),
    last_indexed (_run_indexing C cfg n st).2 = last_indexed st /\
    exists evs,
      trace (_run_indexing C cfg n st).2 = trace st ++ evs /\
      sleeps evs = List.repeat 900 n /\
      Forall (fun ev => Shape.is_github_fetch ev = false) evs.
Proof.
  intros Hdown. induction n as [|n IH]; intros st; cbn [_run_indexing].
  - run. split; [reflexivity|]. exists []. rewrite app_nil_r.
    split; [reflexivity|]. split; [reflexivity | constructor].
  - unfold bind at 1. unfold run_indexing_turn, index_repositories. run.
    destruct (Hdown (world st)) as (e & w' & Hlist). rewrite Hlist. run.
    change (15 * 60) with 900.
    match goal with
    | |- context [_run_indexing C cfg n ?s] =>
        destruct (IH s) as [Hlast (evs & Htrace & Hsleeps & Hfetch)]
    end.
    cbn [last_indexed trace] in Hlast, Htrace.
    split; [exact Hlast|]. eexists. rewrite Htrace, <- !app_assoc.
    split; [reflexivity|]. split.
    + cbn [app sleeps flat_map List.repeat]. fold (sleeps evs). rewrite Hsleeps.
      reflexivity.
    + repeat (constructor; [reflexivity|]). exact Hfetch.
Qed.

End Phases.

(** ** The further properties at work on the demonstration worlds *)

Lemma chunk_code_numbers_chunks_witness :
  Chunking.chunk_code Demo.as_is Demo.as_is Demo.parse_nothing
    {| Chunking.chunk_size := 5; Chunking.chunk_overlap := 2 |}
    ("abc" +:+ nl +:+ "defg") "notes.txt"
  = inl [Chunking.Chunk "abc" "notes.txt" 0; Chunking.Chunk "fgdefg" "notes.txt" 5] /\
  (Chunking.start_line (Chunking.Chunk "fgdefg" "notes.txt" 5) = Z.of_nat 1 * 5 /\
   Chunking.file_path (Chunking.Chunk "fgdefg" "notes.txt" 5) = "notes.txt").
Proof.
  split; [reflexivity|].
  apply (chunk_code_numbers_chunks Demo.as_is Demo.as_is Demo.parse_nothing
           {| Chunking.chunk_size := 5; Chunking.chunk_overlap := 2 |}
           ("abc" +:+ nl +:+ "defg") "notes.txt" _ eq_refl 1%nat).
  reflexivity.
Defined.

Lemma chunks_join_to_units_without_overlap_witness :
  exists chunks,
    Chunking.chunk_code Demo.as_is Demo.as_is Demo.parse_nothing
      {| Chunking.chunk_size := 5; Chunking.chunk_overlap := 0 |}
      ("abc" +:+ nl +:+ "defg") "notes.txt" = inl chunks /\
    Shape.join (map Chunking.content chunks) = Shape.join ["abc"; "defg"].
Proof.
  apply (chunks_join_to_units_without_overlap Demo.as_is Demo.as_is Demo.parse_nothing
           {| Chunking.chunk_size := 5; Chunking.chunk_overlap := 0 |}
           ("abc" +:+ nl +:+ "defg") "notes.txt" ["abc"; "defg"]).
  - cbn. lia.
  - reflexivity.
Defined.

Lemma code_file_chunks_join_to_text_witness :
  exists chunks,
    Chunking.chunk_code Demo.as_is Demo.as_is Demo.parse_nothing
      {| Chunking.chunk_size := 8; Chunking.chunk_overlap := 0 |}
      "const x = 1; return x;" "app.js" = inl chunks /\
    Shape.join (map Chunking.content chunks) = "const x = 1; return x;".
Proof.
  apply (code_file_chunks_join_to_text Demo.as_is Demo.as_is Demo.parse_nothing
           {| Chunking.chunk_size := 8; Chunking.chunk_overlap := 0 |}
           "const x = 1; return x;" "app.js").
  - cbn. lia.
  - reflexivity.
  - reflexivity.
  - reflexivity.
Defined.

Lemma generic_chunks_hold_no_line_feed_witness :
  exists chunks,
    Chunking.chunk_code Demo.as_is Demo.as_is Demo.parse_nothing
      Chunking.default_chunker ("alpha" +:+ nl +:+ "beta") "notes.txt" = inl chunks /\
    Forall (fun c => Shape.has_char LF (Chunking.content c) = false) chunks.
Proof.
  apply (generic_chunks_hold_no_line_feed Demo.as_is Demo.as_is Demo.parse_nothing
           Chunking.default_chunker ("alpha" +:+ nl +:+ "beta") "notes.txt");
    reflexivity.
Defined.

Lemma first_chunk_empty_when_first_unit_too_long_witness :
  exists more,
    Chunking.chunk_code Demo.as_is Demo.as_is Demo.parse_nothing
      {| Chunking.chunk_size := 5; Chunking.chunk_overlap := 0 |}
      "abcdefgh" "notes.txt"
    = inl (Chunking.Chunk "" "notes.txt" 0 :: more).
Proof.
  apply (first_chunk_empty_when_first_unit_too_long
           Demo.as_is Demo.as_is Demo.parse_nothing
           {| Chunking.chunk_size := 5; Chunking.chunk_overlap := 0 |}
           "abcdefgh" "notes.txt" "abcdefgh" []).
  - reflexivity.
  - reflexivity.
Defined.

Lemma python_without_definitions_gives_no_chunk_witness :
  Trial.parse_script Trial.script_src = inl Trial.script_tree /\
  Chunking.chunk_code Demo.as_is Demo.as_is Trial.parse_script
    Chunking.default_chunker Trial.script_src "run.py" = inl [].
Proof.
  split; [reflexivity|].
  apply (python_without_definitions_gives_no_chunk
           Demo.as_is Demo.as_is Trial.parse_script Chunking.default_chunker
           Trial.script_src "run.py" Trial.script_tree);
    reflexivity.
Defined.

Lemma file_outside_allow_list_is_dropped_witness :
  (Indexing._process_file (Demo.collaborators_of Demo.plain)
     "/tmp/tmpab12/extracted/logo.png" "demo" Demo.start).1 = inl [].
Proof.
  apply (file_outside_allow_list_is_dropped (Demo.collaborators_of Demo.plain)
           "/tmp/tmpab12/extracted/logo.png" "demo" Demo.start).
  reflexivity.
Defined.

Lemma unlisted_suffix_is_never_indexed_witness :
  Str.endswith "/tmp/tmpab12/extracted/main.go" ".go" = true /\
  (Indexing._process_file (Demo.collaborators_of Demo.plain)
     "/tmp/tmpab12/extracted/main.go" "demo" Demo.start).1 = inl [].
Proof.
  split; [reflexivity|].
  apply (unlisted_suffix_is_never_indexed (Demo.collaborators_of Demo.plain)
           "/tmp/tmpab12/extracted/main.go" ".go" "demo" Demo.start).
  - right. right. right. left. reflexivity.
  - reflexivity.
Defined.

Lemma unsupported_archive_format_raises_witness :
  Indexing._extract_archive (Demo.collaborators_of Demo.plain)
    "/tmp/tmpab12/repo.rar" "/tmp/tmpab12/extracted" Demo.start
  = (inr (Exception_ "ValueError"
            ("Unsupported archive format: " +:+ "/tmp/tmpab12/repo.rar")),
     Demo.start).
Proof.
  apply (unsupported_archive_format_raises (Demo.collaborators_of Demo.plain)
           "/tmp/tmpab12/repo.rar" "/tmp/tmpab12/extracted" Demo.start);
    reflexivity.
Defined.

Lemma temporary_directory_is_always_released_witness :
  exists evs after,
    Py.trace (Indexing._process_github_repository (Demo.collaborators_of Demo.plain)
                "https://github.com/backstage/backstage" Demo.start).2
    = Py.trace Demo.start
        ++ [Py.Log "INFO"
              ("Processing GitHub repository: " +:+ "https://github.com/backstage/backstage");
            Py.FetchGithubCall "https://github.com/backstage/backstage";
            Py.MkdtempCall]
        ++ evs ++ Py.CleanupCall "/tmp/tmpab12" :: after /\
    (after = [] \/ exists msg, after = [Py.Log "ERROR" msg]).
Proof.
  apply (temporary_directory_is_always_released (Demo.collaborators_of Demo.plain)
           "https://github.com/backstage/backstage" Demo.start [Byte.x50] O O
           "/tmp/tmpab12").
  - reflexivity.
  - discriminate.
  - reflexivity.
Defined.

Lemma empty_payload_is_skipped_witness :
  (Indexing._process_github_repository
     (Trial.collaborators_with Demo.plain Trial.nothing_sent)
     "https://github.com/backstage/backstage" Demo.start).1 = inl tt.
Proof.
  rewrite (proj1 (empty_payload_is_skipped
                    (Trial.collaborators_with Demo.plain Trial.nothing_sent)
                    "https://github.com/backstage/backstage" Demo.start) O eq_refl).
  reflexivity.
Defined.

Lemma gerrit_failure_stops_the_whole_pass_witness :
  Observe.sleeps
    (Py.trace (Indexing.run_indexing_turn
                 (Trial.collaborators_with Demo.plain Trial.gerrit_is_down)
                 Py.settings Demo.start).2) = [900] /\
  Py.last_indexed (Indexing.run_indexing_turn
                     (Trial.collaborators_with Demo.plain Trial.gerrit_is_down)
                     Py.settings Demo.start).2 = None.
Proof.
  rewrite (gerrit_failure_stops_the_whole_pass
             (Trial.collaborators_with Demo.plain Trial.gerrit_is_down)
             Py.settings Demo.start (Demo.boom "ConnectError") O eq_refl).
  split; reflexivity.
Defined.

Lemma batch_lists_are_parallel_witness :
  exists b,
    (Indexing._process_file (Demo.collaborators_of Demo.plain)
       Demo.notes_path "demo" Demo.start).1 = inl [b] /\
    length (Indexing.embeddings b) = length (Indexing.documents b) /\
    length (Indexing.metadatas b) = length (Indexing.documents b).
Proof.
  eexists. split; [vm_compute; reflexivity|].
  edestruct (batch_lists_are_parallel (Demo.collaborators_of Demo.plain)
               Demo.notes_path "demo" Demo.start) as (_ & Hemb & Hmeta & _).
  - vm_compute. reflexivity.
  - split; [exact Hemb | exact Hmeta].
Defined.

Lemma retrieved_chunks_keep_store_order_witness :
  exists chunks,
    Rag.pair_up Demo.one_hit = inl chunks /\
    map Rag.r_content chunks = ["def foo(): pass"].
Proof.
  eexists. split; [vm_compute; reflexivity|].
  edestruct (retrieved_chunks_keep_store_order Demo.one_hit)
    as (docs0 & Hdocs & Hcontents & _).
  - vm_compute. reflexivity.
  - injection Hdocs as <-. exact Hcontents.
Defined.

Lemma three_failures_raise_retry_error_witness :
  exists evs e,
    Rag.process_query (Demo.collaborators_of Trial.dead_store) Py.settings
      "what is foo?" 5 None Demo.start
    = (inr e,
       Py.State 3%nat (Py.trace Demo.start ++ evs)
         (Py.indexed_files Demo.start) (Py.last_indexed Demo.start)) /\
    exc_class e = "RetryError" /\
    Observe.query_calls evs = 3%nat /\
    Observe.sleeps evs = [4; 4] /\
    Observe.llm_calls evs = O.
Proof.
  apply (three_failures_raise_retry_error (Demo.collaborators_of Trial.dead_store)
           Py.settings "what is foo?" 5 None Demo.start 12%nat O 1%nat 2%nat 3%nat
           (Demo.boom "ConnectionError") (Demo.boom "ConnectionError")
           (Demo.boom "ConnectionError"));
    reflexivity.
Defined.

Lemma answer_counts_its_sources_witness :
  exists ans st',
    Rag.process_query (Demo.collaborators_of Demo.flaky_store) Py.settings
      "what is foo?" 5 None Demo.start = (inl ans, st') /\
    Rag.a_chunks_retrieved ans = Z.of_nat (length (Rag.a_sources ans)).
Proof.
  do 2 eexists. split; [vm_compute; reflexivity|].
  eapply (fun H => proj1 (proj2 (answer_counts_its_sources
                                   (Demo.collaborators_of Demo.flaky_store) Py.settings
                                   "what is foo?" 5 None Demo.start _ _ H))).
  vm_compute. reflexivity.
Defined.

Lemma missing_file_type_raises_after_generation_witness :
  exists evs e,
    Rag.process_query (Demo.collaborators_of Trial.untyped_store) Py.settings
      "what is foo?" 5 None Demo.start
    = (inr e,
       Py.State 1%nat (Py.trace Demo.start ++ evs)
         (Py.indexed_files Demo.start) (Py.last_indexed Demo.start)) /\
    exc_class e = "KeyError" /\
    Observe.query_calls evs = 1%nat /\
    Observe.llm_calls evs = 1%nat.
Proof.
  eapply (missing_file_type_raises_after_generation
            (Demo.collaborators_of Trial.untyped_store) Py.settings
            "what is foo?" 5 None Demo.start 12%nat O 1%nat 1%nat
            Trial.untyped_hit).
  - reflexivity.
  - reflexivity.
  - vm_compute. reflexivity.
  - vm_compute. reflexivity.
  - constructor. vm_compute. reflexivity.
  - reflexivity.
Defined.

Lemma endpoint_raises_only_http_500_witness :
  exists e st',
    Api.query_code (Demo.collaborators_of Trial.dead_store) Py.settings
      {| Api.query := "what is foo?"; Api.query_embedding := None |} Demo.start
    = (inr e, st') /\
    exists detail, e = Api.http_500 detail.
Proof.
  do 2 eexists. split; [vm_compute; reflexivity|].
  eapply (endpoint_raises_only_http_500 (Demo.collaborators_of Trial.dead_store)
            Py.settings
            {| Api.query := "what is foo?"; Api.query_embedding := None |} Demo.start).
  vm_compute. reflexivity.
Defined.

Lemma endpoint_answers_empty_store_without_generation_witness :
  Api.answer <$>
    (match (Api.query_code (Demo.collaborators_of Trial.bare_store) Py.settings
              {| Api.query := "x"; Api.query_embedding := Some 7%nat |} Demo.start).1
     with inl r => Some r | inr _ => None end)
  = Some "No relevant code found for your query.".
Proof.
  rewrite (endpoint_answers_empty_store_without_generation
             (Demo.collaborators_of Trial.bare_store) Py.settings "x" 7%nat
             Demo.start 1%nat [] eq_refl).
  reflexivity.
Defined.

Lemma endpoint_generates_on_empty_inner_list_witness :
  Api.answer <$>
    (match (Api.query_code (Demo.collaborators_of Demo.plain) Py.settings
              {| Api.query := "x"; Api.query_embedding := None |} Demo.start).1
     with inl r => Some r | inr _ => None end)
  = Some "It depends.".
Proof.
  rewrite (endpoint_generates_on_empty_inner_list
             (Demo.collaborators_of Demo.plain) Py.settings "x" 1%nat
             Demo.start O 1%nat 1%nat [] "It depends." eq_refl eq_refl eq_refl).
  reflexivity.
Defined.

Lemma scheduler_starves_while_gerrit_is_down_witness :
  Py.last_indexed
    (Indexing._run_indexing (Trial.collaborators_with Demo.plain Trial.gerrit_is_down)
       Py.settings 3 Demo.start).2 = None /\
  exists evs,
    Py.trace
      (Indexing._run_indexing (Trial.collaborators_with Demo.plain Trial.gerrit_is_down)
         Py.settings 3 Demo.start).2 = Py.trace Demo.start ++ evs /\
    Observe.sleeps evs = [900; 900; 900] /\
    Forall (fun ev => Shape.is_github_fetch ev = false) evs.
Proof.
  apply (scheduler_starves_while_gerrit_is_down
           (Trial.collaborators_with Demo.plain Trial.gerrit_is_down) Py.settings).
  intros w. exists (Demo.boom "ConnectError"), w. reflexivity.
Defined.

(** ** The identity of a file and the temporary directory *)

Lemma string_app_inv_head (s a b : string) : s +:+ a = s +:+ b -> a = b.
Proof.
  induction s as [|c s IH]; [trivial|].
  rewrite !string_app_cons. intros [= H]. apply IH, H.
Qed.

Lemma string_app_inv_tail (a b t : string) : a +:+ t = b +:+ t -> a = b.
Proof.
  revert b. induction a as [|c a IH]; intros b Heq.
  - destruct b as [|c' b]; [reflexivity|]. exfalso.
    apply (f_equal Str.len) in Heq. rewrite !len_app in Heq.
    unfold Str.len in Heq. cbn [String.length] in Heq. lia.
  - destruct b as [|c' b].
    + exfalso. apply (f_equal Str.len) in Heq. rewrite !len_app in Heq.
      unfold Str.len in Heq. cbn [String.length] in Heq. lia.
    + rewrite !string_app_cons in Heq. injection Heq as -> Heq.
      f_equal. apply IH, Heq.
Qed.

(** The same content read from two paths has two identities. *)
Lemma file_id_depends_on_path (repo path1 path2 file_hash : string) :
  path1 <> path2 ->
  Indexing.make_file_id repo path1 file_hash
  <> Indexing.make_file_id repo path2 file_hash.
Proof.
  intros Hne Heq. apply Hne. unfold Indexing.make_file_id in Heq.
  apply string_app_inv_head in Heq. apply string_app_inv_head in Heq.
  apply string_app_inv_tail in Heq. exact Heq.
Qed.

(** C6.  The identity under which a file is remembered holds the path
    the file was read from, so the same content at another path has
    another identity; and that path lies in the temporary directory of
    the pass.  With a new temporary directory for each pass, the second
    pass over an unchanged repository finds none of its files in the
    set: the one file of the repository is given to the embedding model
    again and written to the store again, and the set then holds two
    identities for it. *)
Theorem second_pass_embeds_the_same_file_again :
  (forall repo path1 path2 file_hash : string,
      path1 <> path2 ->
      Indexing.make_file_id repo path1 file_hash
      <> Indexing.make_file_id repo path2 file_hash) /\
  (let two_passes :=
     Indexing._run_indexing (Trial.with_fresh_directories Demo.plain)
       Py.settings 2 Demo.start in
   two_passes.1 = inl tt /\
   Observe.encode_calls (Py.trace two_passes.2) = ["alphabeta"; "alphabeta"] /\
   Observe.add_calls (Py.trace two_passes.2) = 2%nat /\
   Py.indexed_files two_passes.2 = {[ Trial.notes_id_in 0; Trial.notes_id_in 1 ]}).
Proof.
  split.
  - apply file_id_depends_on_path.
  - cbv zeta. repeat split; vm_compute; reflexivity.
Qed.

Lemma second_pass_embeds_the_same_file_again_witness :
  Trial.temp_dir_name 0 +:+ "/extracted/notes.txt"
  <> Trial.temp_dir_name 1 +:+ "/extracted/notes.txt" /\
  Trial.notes_id_in 0 <> Trial.notes_id_in 1.
Proof.
  assert (Hpaths : Trial.temp_dir_name 0 +:+ "/extracted/notes.txt"
                   <> Trial.temp_dir_name 1 +:+ "/extracted/notes.txt").
  { vm_compute. discriminate. }
  split; [exact Hpaths|].
  exact (proj1 second_pass_embeds_the_same_file_again
           "https://github.com/backstage/backstage" _ _
           ("sha256:" +:+ "alpha" +:+ nl +:+ "beta") Hpaths).
Defined.
